(** * SuperDeno [Test]: the expectation chain and its completion pipeline

    A shallow embedding of the [Test] class, which extends superagent's
    [Request], together with the properties of its
    expectation-declaration operation [expect], its completion trigger
    [end] and its private assertion helpers.

    JavaScript values are modelled as a first-order data type [JsVal];
    functions supplied by the caller are kept apart from data as [JsFun].
    The effects of the code on its collaborators (the underlying client, the
    server, the polyfilled transport layer and the caller's own functions)
    are recorded, in program order, in a [Trace]. *)

From Stdlib Require Import Ascii.
From stdpp Require Import base strings list gmap pretty.

Open Scope string_scope.
Open Scope Z_scope.
Open Scope list_scope.

Set Warnings "-register-all".

(** ** JavaScript values *)

Module Js.

(** A [RegExp] object; matching itself is done by the host ([Host]). *)
Record RegExp := { source : string; flags : string }.

(** Data values, i.e. every value that is not a function.  Numbers are the
    integer-valued ones (status codes and ports).  An [Error] instance
    carries its [message] and its own enumerable properties, in the order
    of their assignment. *)
Inductive JsVal :=
| VUndefined
| VNull
| VBool (b : bool)
| VNum (n : Z)
| VStr (s : string)
| VRegExp (r : RegExp)
| VArr (xs : list JsVal)
| VObj (fields : list (string * JsVal))
| VError (message : string) (props : list (string * JsVal)).

(** [typeof v] for a data value. *)
Definition typeof (v : JsVal) : string :=
  match v with
  | VUndefined => "undefined"
  | VBool _ => "boolean"
  | VNum _ => "number"
  | VStr _ => "string"
  | VNull | VRegExp _ | VArr _ | VObj _ | VError _ _ => "object"
  end.

(** [v instanceof RegExp], [v instanceof Error], [Array.isArray(v)]. *)
Definition instanceof_RegExp (v : JsVal) : bool :=
  match v with VRegExp _ => true | _ => false end.

Definition instanceof_Error (v : JsVal) : bool :=
  match v with VError _ _ => true | _ => false end.

Definition isArray (v : JsVal) : bool :=
  match v with VArr _ => true | _ => false end.

(** ToBoolean: the value of [v] in a condition, [!v] being its negation. *)
Definition truthy (v : JsVal) : bool :=
  match v with
  | VUndefined | VNull => false
  | VBool b => b
  | VNum n => negb (n =? 0)
  | VStr s => negb (String.eqb s EmptyString)
  | VRegExp _ | VArr _ | VObj _ | VError _ _ => true
  end.

(** [a || b]. *)
Definition or_else (a b : JsVal) : JsVal := if truthy a then a else b.

(** The double-quote character, for the messages that quote a value. *)
Definition dq : string := String (ascii_of_N 34) EmptyString.

Fixpoint join (sep : string) (l : list string) : string :=
  match l with
  | [] => EmptyString
  | [s] => s
  | s :: rest => s +:+ sep +:+ join sep rest
  end.

(** ToString, as performed by template literals, by concatenation with a
    string and by [Array.prototype.toString]. *)
Fixpoint to_str (v : JsVal) : string :=
  match v with
  | VUndefined => "undefined"
  | VNull => "null"
  | VBool true => "true"
  | VBool false => "false"
  | VNum n => pretty n
  | VStr s => s
  | VRegExp r => "/" +:+ source r +:+ "/" +:+ flags r
  | VArr xs =>
      join "," (List.map (fun x => match x with
                                   | VUndefined | VNull => EmptyString
                                   | _ => to_str x
                                   end) xs)
  | VObj _ => "[object Object]"
  | VError m _ => if String.eqb m EmptyString then "Error" else "Error: " +:+ m
  end.

(** [a === b].  Primitives are compared by value.  Two objects are strictly
    equal only when they are the same object; the operands compared by the
    code under study are a value written by the caller and a value read
    from the response, which are never the same object. *)
Definition strict_equals (a b : JsVal) : bool :=
  match a, b with
  | VUndefined, VUndefined => true
  | VNull, VNull => true
  | VBool x, VBool y => Bool.eqb x y
  | VNum x, VNum y => x =? y
  | VStr x, VStr y => String.eqb x y
  | _, _ => false
  end.

(** Own-property access on an [Error] instance. *)
Definition get_prop (k : string) (props : list (string * JsVal)) : option JsVal :=
  snd <$> List.find (fun kv => String.eqb (fst kv) k) props.

(** [k in e] for an own property of an [Error] instance. *)
Definition has_prop (k : string) (e : JsVal) : bool :=
  match e with
  | VError _ props => match get_prop k props with Some _ => true | None => false end
  | _ => false
  end.

(** ASCII case mapping, as [toLowerCase] and [toUpperCase] act on header
    names and HTTP methods. *)
Definition lower_ascii (c : ascii) : ascii :=
  let n := N_of_ascii c in
  if ((65 <=? n) && (n <=? 90))%N then ascii_of_N (n + 32) else c.

Definition upper_ascii (c : ascii) : ascii :=
  let n := N_of_ascii c in
  if ((97 <=? n) && (n <=? 122))%N then ascii_of_N (n - 32) else c.

Fixpoint map_string (f : ascii -> ascii) (s : string) : string :=
  match s with
  | EmptyString => EmptyString
  | String c rest => String (f c) (map_string f rest)
  end.

Definition toLowerCase := map_string lower_ascii.
Definition toUpperCase := map_string upper_ascii.

(** The engine's [TypeError] for reading a property of [undefined]. *)
Definition TypeError_undefined (prop : string) : JsVal :=
  VError ("Cannot read property '" +:+ prop +:+ "' of undefined") [].

End Js.
Export Js.

(** ** The response and the collaborators *)

(** The response object handed over by the underlying client
    ([IResponse]): only the members read by the assertions. *)
Record Response := {
  status : Z;
  headers : gmap string JsVal;
  text : JsVal;
  body : JsVal
}.

(** Result of evaluating a call: a returned value or a thrown one. *)
Inductive Outcome :=
| Return (v : JsVal)
| Throw (v : JsVal).

(** Actual parameters passed to a caller-supplied function: a data value,
    or the response ([None] is [undefined]). *)
Inductive Actual :=
| ActVal (v : JsVal)
| ActRes (res : option Response).

(** A [Server] with the port its listener is bound to
    ([server.listener.addr.port]). *)
Record Server := { server_id : nat; addr_port : Z }.

(** Observable effects, in program order. *)
Inductive Event :=
| EvListen (listener : nat) (port : Z)
| EvSend (method url : string) (callback : option nat)
| EvResponse (err : JsVal) (res : option Response)
| EvClose (server : Server)
| EvAwait (promise : nat)
| EvCall (fn : nat) (args : list Actual).

Abbreviation Trace := (list Event).

(** A caller-supplied function.  It is identified by [fn_name]; what it
    returns or throws may depend on its arguments and on everything that
    happened before the call, which is how a side-effecting function (a
    counter, say) is described. *)
Record JsFun := {
  fn_name : nat;
  fn_body : list Actual -> Trace -> Outcome
}.

(** [f(args)]: the call is recorded. *)
Definition call (f : JsFun) (args : list Actual) (tr : Trace) : Outcome * Trace :=
  (fn_body f args tr, tr ++ [EvCall (fn_name f) args]).

(** An object that can be told to listen ([Listener]): [listen p] is the
    server obtained from [listen({ port: p })]. *)
Record Listener := { listener_id : nat; listen : Z -> Server }.

(** The external functions used by the assertions: [assertEquals] (which
    returns normally exactly when its arguments are deeply equal),
    [util.inspect], the table [STATUS_TEXT] and [RegExp.prototype.test]. *)
Class Host := {
  assertEquals : JsVal -> JsVal -> bool;
  inspect : JsVal -> string;
  STATUS_TEXT : Z -> JsVal;
  regexp_test : RegExp -> string -> bool
}.

(** ** The expectations and their evaluation *)

(** An entry of the private list [#asserts].  [expect] pushes either the
    caller's function itself or one of the private checks bound to its
    first argument. *)
Inductive Assert :=
| AFunction (f : JsFun)
| AStatus (expected : Z)
| ABody (expected : JsVal)
| AHeader (name : string) (value : JsVal).

Section Assertions.

Context `{Host}.

(** [error(msg, expected, actual)]: an [Error] with [msg] and the
    properties [expected], [actual] and [showDiff]. *)
Definition error (msg : string) (expected actual : JsVal) : JsVal :=
  VError msg [("expected", expected); ("actual", actual); ("showDiff", VBool true)].

(** [#assertStatus(status, res)]. *)
Definition assertStatus (expected : Z) (res : option Response) : Outcome :=
  match res with
  | None => Throw (TypeError_undefined "status")
  | Some r =>
      if negb (status r =? expected) then
        let a := STATUS_TEXT expected in
        let b := STATUS_TEXT (status r) in
        Return (VError ("expected " +:+ pretty expected +:+ " " +:+ dq +:+ to_str a
                        +:+ dq +:+ ", got " +:+ pretty (status r) +:+ " " +:+ dq
                        +:+ to_str b +:+ dq) [])
      else Return VUndefined
  end.

(** [#assertBody(body, res)]. *)
Definition assertBody (expected : JsVal) (res : option Response) : Outcome :=
  let isregexp := instanceof_RegExp expected in
  match res with
  | None =>
      if String.eqb (typeof expected) "object" && negb isregexp
      then Throw (TypeError_undefined "body")
      else Throw (TypeError_undefined "text")
  | Some r =>
      if String.eqb (typeof expected) "object" && negb isregexp then
        if assertEquals expected (body r) then Return VUndefined
        else
          let a := inspect expected in
          let b := inspect (body r) in
          Return (error ("expected " +:+ a +:+ " response body, got " +:+ b)
                        expected (body r))
      else if negb (strict_equals expected (text r)) then
        let a := inspect expected in
        let b := inspect (text r) in
        match expected with
        | VRegExp re =>
            if negb (regexp_test re (to_str (text r))) then
              Return (error ("expected body " +:+ b +:+ " to match " +:+ to_str expected)
                            expected (body r))
            else Return VUndefined
        | _ =>
            Return (error ("expected " +:+ a +:+ " response body, got " +:+ b)
                          expected (body r))
        end
      else Return VUndefined
  end.

(** [#assertHeader({ name, value }, res)]. *)
Definition assertHeader (field : string) (fieldExpected : JsVal)
    (res : option Response) : Outcome :=
  match res with
  | None => Throw (TypeError_undefined "headers")
  | Some r =>
      match default VUndefined (headers r !! toLowerCase field) with
      | VUndefined =>
          Return (VError ("expected " +:+ dq +:+ field +:+ dq +:+ " header field") [])
      | actual =>
          if (isArray actual && strict_equals (VStr (to_str actual)) fieldExpected)
             || strict_equals fieldExpected actual
          then Return VUndefined
          else
            match fieldExpected with
            | VRegExp re =>
                if negb (regexp_test re (to_str actual)) then
                  Return (VError ("expected " +:+ dq +:+ field +:+ dq +:+ " matching "
                                  +:+ to_str fieldExpected +:+ ", got " +:+ dq
                                  +:+ to_str actual +:+ dq) [])
                else Return VUndefined
            | _ =>
                Return (VError ("expected " +:+ dq +:+ field +:+ dq +:+ " of " +:+ dq
                                +:+ to_str fieldExpected +:+ dq +:+ ", got " +:+ dq
                                +:+ to_str actual +:+ dq) [])
            end
      end
  end.

(** [fn(res)] for an entry [fn] of [#asserts]. *)
Definition apply_assert (fn : Assert) (res : option Response) (tr : Trace)
    : Outcome * Trace :=
  match fn with
  | AFunction f => call f [ActRes res] tr
  | AStatus expected => (assertStatus expected res, tr)
  | ABody expected => (assertBody expected res, tr)
  | AHeader name value => (assertHeader name value res, tr)
  end.

(** [#assertFunction(fn, res)]: the [Error] to report, or [undefined]. *)
Definition assertFunction (fn : Assert) (res : option Response) (tr : Trace)
    : JsVal * Trace :=
  let '(o, tr') := apply_assert fn res tr in
  let err := match o with Return v => v | Throw e => e end in
  (if instanceof_Error err then err else VUndefined, tr').

(** The loop of [#assert]:
    [for (i = 0; i < asserts.length && !error; i += 1) error = ...]. *)
Fixpoint assert_loop (asserts : list Assert) (res : option Response)
    (error : JsVal) (tr : Trace) : JsVal * Trace :=
  match asserts with
  | [] => (error, tr)
  | fn :: rest =>
      if truthy error then (error, tr)
      else
        let '(e, tr') := assertFunction fn res tr in
        assert_loop rest res e tr'
  end.

(** The error [#assert] hands to the callback, before [|| null]. *)
Definition assert_error (asserts : list Assert) (resError : JsVal)
    (res : option Response) (tr : Trace) : JsVal * Trace :=
  let error0 :=
    if negb (bool_decide (is_Some res)) && truthy resError then resError
    else VUndefined in
  let '(error1, tr1) := assert_loop asserts res error0 tr in
  let error2 :=
    if negb (truthy error1) && truthy resError then resError else error1 in
  (error2, tr1).

(** [#assert(resError, res, fn)] on an instance whose list is [asserts]. *)
Definition assert (asserts : list Assert) (resError : JsVal)
    (res : option Response) (fn : option JsFun) (tr : Trace) : Outcome * Trace :=
  let '(error, tr1) := assert_error asserts resError res tr in
  match fn with
  | Some f => call f [ActVal (or_else error VNull); ActRes res] tr1
  | None => (Return VUndefined, tr1)
  end.

End Assertions.

(** ** The instance: construction, declaration, completion *)

(** The first argument of the constructor, [string | Listener | Server],
    and anything else a caller may pass.

    Modelled from the spec: the predicates [isString], [isServer] and
    [isListener] of [utils.ts], which is not among the sources; the handle is
    one of an address string, a running server, a listenable server factory,
    or none of these, and the predicates tell these variants apart. *)
Inductive Handle :=
| HString (s : string)
| HServer (s : Server)
| HListener (l : Listener)
| HOther (v : JsVal).

(** The members of a [Test] instance that the class reads or writes;
    [method], [url] and [maxRedirects] belong to the inherited request. *)
Record Test := {
  method : string;
  url : string;
  maxRedirects : Z;
  app : Handle;
  server : option Server;
  asserts : list Assert
}.

(** [#serverAddress(path, host, secure)]. *)
Definition serverAddress (srv : Server) (path : string) (host : option string)
    (secure : bool) : string :=
  let port := addr_port srv in
  let protocol := if secure then "https" else "http" in
  let host' := match host with
               | Some h => if String.eqb h EmptyString then "127.0.0.1" else h
               | None => "127.0.0.1"
               end in
  protocol +:+ "://" +:+ host' +:+ ":" +:+ pretty port +:+ path.

(** What [new Test(...)] yields: the instance, or the thrown error. *)
Inductive Constructed :=
| Built (t : Test)
| Raised (e : JsVal).

(** [constructor(app, method, path, host?, secure = false)]. *)
Definition constructor (app0 : Handle) (method0 path : string)
    (host : option string) (secure0 : option bool) (tr : Trace)
    : Constructed * Trace :=
  let secure := default false secure0 in
  let build u srv :=
    Built {| method := toUpperCase method0; url := u; maxRedirects := 0;
             app := app0; server := srv; asserts := [] |} in
  match app0 with
  | HString s => (build (s +:+ path) None, tr)
  | HServer srv => (build (serverAddress srv path host secure) (Some srv), tr)
  | HListener l =>
      let secure := false in
      let srv := listen l 0 in
      (build (serverAddress srv path host secure) (Some srv),
       tr ++ [EvListen (listener_id l) 0])
  | HOther _ =>
      (Raised (VError "superdeno is unable to identify or create a valid test server" []),
       tr)
  end.

(** What the closure passed to the underlying client's [end] captures:
    [server], [app] and [callback]; [self] is the instance itself. *)
Record Pending := {
  p_server : option Server;
  p_app : Handle;
  p_callback : option JsFun
}.

(** The instance, the effects so far, and the requests handed to the
    underlying client that have not settled yet. *)
Record State := {
  inst : Test;
  trace : Trace;
  pending : list Pending
}.

(** [end(callback?)]: the underlying client's [end] is called with a
    closure that waits for the response. *)
Definition end_ (callback : option JsFun) (st : State) : State :=
  let t := inst st in
  {| inst := t;
     trace := trace st ++ [EvSend (method t) (url t) (fn_name <$> callback)];
     pending := pending st ++
       [{| p_server := server t; p_app := app t; p_callback := callback |}] |}.

(** An argument of [expect]: a data value or a function. *)
Inductive Arg :=
| ArgVal (v : JsVal)
| ArgFun (f : JsFun).

(** The [i]-th argument; a missing one reads as [undefined]. *)
Definition arg (args : list Arg) (i : nat) : Arg :=
  nth i args (ArgVal VUndefined).

(** [this.#asserts.push(a)]. *)
Definition push (a : Assert) (st : State) : State :=
  let t := inst st in
  {| inst := {| method := method t; url := url t; maxRedirects := maxRedirects t;
                app := app t; server := server t;
                asserts := asserts t ++ [a] |};
     trace := trace st;
     pending := pending st |}.

(** [if (typeof x === "function") this.end(x)]. *)
Definition end_if_function (x : Arg) (st : State) : State :=
  match x with
  | ArgFun f => end_ (Some f) st
  | ArgVal _ => st
  end.

(** [expect(a, b?, c?)], called with the argument list [args]. *)
Definition expect (args : list Arg) (st : State) : State :=
  let a := arg args 0 in
  let b := arg args 1 in
  let c := arg args 2 in
  match a with
  | ArgFun f => push (AFunction f) st
  | ArgVal av =>
      let st := end_if_function b st in
      let st := end_if_function c st in
      match av with
      | VNum n =>
          let st := push (AStatus n) st in
          match b with
          | ArgVal bv =>
              if (1 <? length args)%nat then push (ABody bv) st else st
          | ArgFun _ => st
          end
      | _ =>
          match b with
          | ArgVal ((VStr _ | VNum _ | VRegExp _) as bv) =>
              push (AHeader (to_str av) bv) st
          | _ => push (ABody av) st
          end
      end
  end.

(** A promise registered by the polyfilled transport layer in
    [_xhrSham.promises], and the way it settles. *)
Inductive Settled :=
| Fulfilled (v : JsVal)
| Rejected (e : JsVal).

Record Promise := { promise_id : nat; settled : Settled }.

(** [await promise]. *)
Definition await (p : Promise) (tr : Trace) : Outcome * Trace :=
  (match settled p with Fulfilled v => Return v | Rejected e => Throw e end,
   tr ++ [EvAwait (promise_id p)]).

(** The loop over [Object.values(_xhrSham.promises)]: a falsy entry
    ([None]) is skipped, and [try { await promise } catch (_) {}] discards
    the way the promise settles. *)
Fixpoint drain (promises : list (option Promise)) (tr : Trace) : Trace :=
  match promises with
  | [] => tr
  | None :: rest => drain rest tr
  | Some p :: rest => let '(_, tr') := await p tr in drain rest tr'
  end.

(** How closing the server goes. *)
Inductive Closing :=
| Closed
| AlreadyClosed
| CloseFailed (e : JsVal).

(** Modelled from the spec: [close(server, app, serverError, callback)] of
    [close.ts], which is not among the sources.  A server that this instance
    started itself (the handle is a listenable factory) is closed;
    an externally managed one is left untouched.  An already-closed
    failure is swallowed, any other close error is surfaced to the
    continuation in place of [serverError].  The continuation always runs,
    after the close. *)
Definition close (srv : option Server) (app0 : Handle) (serverError : JsVal)
    (closing : Closing) (callback : JsVal -> Trace -> Outcome * Trace)
    (tr : Trace) : Outcome * Trace :=
  match app0, srv with
  | HListener _, Some s =>
      let surfaced := match closing with
                      | CloseFailed e => e
                      | Closed | AlreadyClosed => serverError
                      end in
      callback surfaced (tr ++ [EvClose s])
  | _, _ => callback serverError tr
  end.

Section Completion.

Context `{Host}.

(** The closure [async (err, res) => ...] that [end] passes to the
    underlying client, run when the client delivers [(err, res)]; the
    continuation given to [close] takes no parameter.  [self] is the instance
    as it is when the response arrives. *)
Definition on_response (p : Pending) (self : Test) (err : JsVal)
    (res : option Response) (closing : Closing)
    (promises : list (option Promise)) (tr : Trace) : Outcome * Trace :=
  close (p_server p) (p_app p) VUndefined closing
    (fun _ tr1 =>
       let tr2 := drain promises tr1 in
       assert (asserts self) err res (p_callback p) tr2)
    tr.

(** The underlying client settles its [i]-th outstanding request with
    [(err, res)]. *)
Definition respond (i : nat) (err : JsVal) (res : option Response)
    (closing : Closing) (promises : list (option Promise)) (st : State) : State :=
  match pending st !! i with
  | None => st
  | Some p =>
      let '(_, tr') :=
        on_response p (inst st) err res closing promises
          (trace st ++ [EvResponse err res]) in
      {| inst := inst st; trace := tr'; pending := delete i (pending st) |}
  end.

End Completion.

(** ** A reference host

    A small, executable [Host] on which the definitions above can be run:
    structural deep equality, a rendering of values, a few reason phrases,
    and patterns that match when their source occurs in the subject. *)

Module Reference.

Fixpoint deep_equal (a b : JsVal) : bool :=
  match a, b with
  | VUndefined, VUndefined | VNull, VNull => true
  | VBool x, VBool y => Bool.eqb x y
  | VNum x, VNum y => x =? y
  | VStr x, VStr y => String.eqb x y
  | VRegExp x, VRegExp y =>
      String.eqb (source x) (source y) && String.eqb (flags x) (flags y)
  | VArr xs, VArr ys =>
      (fix go (xs ys : list JsVal) : bool :=
         match xs, ys with
         | [], [] => true
         | x :: xs', y :: ys' => deep_equal x y && go xs' ys'
         | _, _ => false
         end) xs ys
  | VObj ps, VObj qs =>
      (fix go (ps qs : list (string * JsVal)) : bool :=
         match ps, qs with
         | [], [] => true
         | (k, x) :: ps', (k', y) :: qs' =>
             String.eqb k k' && deep_equal x y && go ps' qs'
         | _, _ => false
         end) ps qs
  | VError m _, VError m' _ => String.eqb m m'
  | _, _ => false
  end.

Definition show (v : JsVal) : string :=
  match v with
  | VStr s => "'" +:+ s +:+ "'"
  | _ => to_str v
  end.

Definition status_text (n : Z) : JsVal :=
  if n =? 200 then VStr "OK"
  else if n =? 201 then VStr "Created"
  else if n =? 400 then VStr "Bad Request"
  else if n =? 404 then VStr "Not Found"
  else if n =? 500 then VStr "Internal Server Error"
  else VUndefined.

Definition occurs (r : RegExp) (subject : string) : bool :=
  match String.index 0 (source r) subject with
  | Some _ => true
  | None => false
  end.

Definition host : Host :=
  {| assertEquals := deep_equal;
     inspect := show;
     STATUS_TEXT := status_text;
     regexp_test := occurs |}.

End Reference.

(** ** What an expectation reports *)

Section Reports.

Context `{Host}.

(** The [Error] instance that [#assertFunction] makes of an outcome. *)
Definition failure_of (o : Outcome) : option JsVal :=
  match o with
  | Return v | Throw v => if instanceof_Error v then Some v else None
  end.

(** An outcome that [#assertFunction] lets pass. *)
Definition passes (o : Outcome) : bool :=
  match failure_of o with Some _ => false | None => true end.

(** Evaluate the entries in order as long as each of them passes: the
    trace reached when all of them do. *)
Fixpoint pass_all (asserts : list Assert) (res : option Response) (tr : Trace)
    : option Trace :=
  match asserts with
  | [] => Some tr
  | fn :: rest =>
      let '(e, tr') := assertFunction fn res tr in
      if instanceof_Error e then None else pass_all rest res tr'
  end.

(** Walk the list in order and stop at the first entry that produces an
    error. *)
Fixpoint first_failure (asserts : list Assert) (res : option Response)
    (tr : Trace) : option JsVal * Trace :=
  match asserts with
  | [] => (None, tr)
  | fn :: rest =>
      let '(e, tr') := assertFunction fn res tr in
      if instanceof_Error e then (Some e, tr') else first_failure rest res tr'
  end.

(** The precedence of errors in the words of the specification: a transport
    error without a response; else the first failing expectation; else a
    transport error that exists anyway; else [null]. *)
Definition reported (asserts : list Assert) (resError : JsVal)
    (res : option Response) (tr : Trace) : JsVal * Trace :=
  match res with
  | None =>
      if truthy resError then (resError, tr)
      else
        match first_failure asserts res tr with
        | (Some e, tr') => (e, tr')
        | (None, tr') => (VNull, tr')
        end
  | Some _ =>
      match first_failure asserts res tr with
      | (Some e, tr') => (e, tr')
      | (None, tr') => (if truthy resError then resError else VNull, tr')
      end
  end.

End Reports.

(** ** Fixtures: a response and a few caller-supplied functions *)

Definition res200 : Response :=
  {| status := 200;
     headers := <[ "set-cookie" := VArr [VStr "a=1"; VStr "b=2"] ]>
                  {[ "content-type" := VStr "application/json" ]};
     text := VStr "hello world";
     body := VObj [("a", VNum 1)] |}.

Definition res404 : Response :=
  {| status := 404;
     headers := ∅;
     text := VStr "goodbye";
     body := VObj [("a", VNum 2)] |}.

(** Functions that return nothing, return an [Error], throw an [Error],
    throw a string, and a completion callback. *)
Definition fn_ok : JsFun :=
  {| fn_name := 1; fn_body := fun _ _ => Return VUndefined |}.
Definition fn_bad : JsFun :=
  {| fn_name := 2; fn_body := fun _ _ => Return (VError "bad" []) |}.
Definition fn_late : JsFun :=
  {| fn_name := 3; fn_body := fun _ _ => Return (VError "late" []) |}.
Definition fn_done : JsFun :=
  {| fn_name := 9; fn_body := fun _ _ => Return VUndefined |}.

(** A predicate with a side effect: it counts its own invocations and
    fails from the second one on. *)
Definition fn_once : JsFun :=
  {| fn_name := 6;
     fn_body := fun _ tr =>
       if existsb (fun ev => match ev with
                             | EvCall 6%nat _ => true
                             | _ => false
                             end) tr
       then Return (VError "called twice" [])
       else Return VUndefined |}.

(** The number of requests handed to the underlying client. *)
Definition sends (tr : Trace) : nat :=
  length (List.filter (fun ev => match ev with EvSend _ _ _ => true | _ => false end) tr).

(** An instance for a server given by its address, not yet completed. *)
Definition probe : Test :=
  {| method := "GET"; url := "http://127.0.0.1:4000/user"; maxRedirects := 0;
     app := HString "http://127.0.0.1:4000"; server := None; asserts := [] |}.

Definition probe_state : State :=
  {| inst := probe; trace := []; pending := [] |}.

(** A server factory that binds port 49152 when asked for an ephemeral
    port, and a request pending on the server it started. *)
Definition factory : Listener :=
  {| listener_id := 7;
     listen := fun p => {| server_id := 7;
                           addr_port := if p =? 0 then 49152 else p |} |}.

Definition owned_state : State :=
  {| inst := {| method := "GET"; url := "http://127.0.0.1:49152/user";
                maxRedirects := 0; app := HListener factory;
                server := Some (listen factory 0);
                asserts := [AFunction fn_ok; AStatus 200] |};
     trace := [];
     pending := [{| p_server := Some (listen factory 0);
                    p_app := HListener factory;
                    p_callback := Some fn_done |}] |}.

(** What the transport layer has registered: a promise that rejects, an
    entry that is gone, and a promise that fulfils. *)
Definition transport_promises : list (option Promise) :=
  [Some {| promise_id := 1; settled := Rejected (VError "socket hang up" []) |};
   None;
   Some {| promise_id := 2; settled := Fulfilled VUndefined |}].

(** The instance [t] with [l] as its list of expectations. *)
Definition with_asserts (l : list Assert) (t : Test) : Test :=
  {| method := method t; url := url t; maxRedirects := maxRedirects t;
     app := app t; server := server t; asserts := l |}.

(** The own properties of an [Error] instance. *)
Definition error_props (e : JsVal) : list (string * JsVal) :=
  match e with VError _ ps => ps | _ => [] end.

(** [res.headers[field.toLowerCase()]]. *)
Definition header_value (r : Response) (field : string) : JsVal :=
  default VUndefined (headers r !! toLowerCase field).

(** The close performed for a pending request: the server is closed when
    the instance started it. *)
Definition closed_by (p : Pending) : Trace :=
  match p_app p, p_server p with
  | HListener _, Some s => [EvClose s]
  | _, _ => []
  end.

(** The awaits of a drain, one for each promise that is there. *)
Fixpoint awaited (promises : list (option Promise)) : Trace :=
  match promises with
  | [] => []
  | None :: rest => awaited rest
  | Some p :: rest => EvAwait (promise_id p) :: awaited rest
  end.

(** The same promise, settling without an error. *)
Definition fulfil (p : Promise) : Promise :=
  {| promise_id := promise_id p; settled := Fulfilled VUndefined |}.

Definition fulfilled (promises : list (option Promise)) : list (option Promise) :=
  List.map (option_map fulfil) promises.

Definition is_call (ev : Event) : bool :=
  match ev with EvCall _ _ => true | _ => false end.

(** [typeof x === "function"] for an argument of [expect]. *)
Definition is_function (x : Arg) : bool :=
  match x with ArgFun _ => true | ArgVal _ => false end.

Definition fun_of (x : Arg) : list JsFun :=
  match x with ArgFun f => [f] | ArgVal _ => [] end.

(** The functions that a call of [expect] hands to [end], in order: none
    when the first argument is a function, else the second and the third
    argument when they are functions. *)
Definition triggered (args : list Arg) : list JsFun :=
  if is_function (arg args 0) then []
  else fun_of (arg args 1) ++ fun_of (arg args 2).

(** What [end(f)] records on the instance [t]. *)
Definition send_event (t : Test) (f : JsFun) : Event :=
  EvSend (method t) (url t) (Some (fn_name f)).

(** An entry that is one of the private checks, not a function of the
    caller. *)
Definition is_builtin (a : Assert) : bool :=
  match a with AFunction _ => false | _ => true end.

(** A private check that involves no pattern: a status check, or a body
    or header check whose expected value is not a [RegExp]. *)
Definition pattern_free (a : Assert) : bool :=
  match a with
  | AFunction _ => false
  | AStatus _ => true
  | ABody v | AHeader _ v => negb (instanceof_RegExp v)
  end.

(** Every character of [s] is an ASCII character. *)
Fixpoint is_ascii (s : string) : bool :=
  match s with
  | EmptyString => true
  | String c rest => (N_of_ascii c <? 128)%N && is_ascii rest
  end.

(** No character of [s] is a lower-case ASCII letter. *)
Fixpoint no_lower_case (s : string) : bool :=
  match s with
  | EmptyString => true
  | String c rest =>
      negb ((97 <=? N_of_ascii c) && (N_of_ascii c <=? 122))%N
      && no_lower_case rest
  end.

(** The listen that construction performs for a handle. *)
Definition listened (h : Handle) : Trace :=
  match h with
  | HListener l => [EvListen (listener_id l) 0]
  | _ => []
  end.

(** A response without a text, and one whose header holds a single-element
    array. *)
Definition res_no_text : Response :=
  {| status := 204; headers := {[ "x-tags" := VArr [VStr "one"] ]};
     text := VUndefined; body := VNull |}.

(** ** Facts about the evaluation of the pending list *)

Section ReportFacts.

Context `{Host}.

Lemma assertFunction_cases fn res tr :
  fst (assertFunction fn res tr) = VUndefined \/
  instanceof_Error (fst (assertFunction fn res tr)) = true.
Proof.
  unfold assertFunction.
  destruct (apply_assert fn res tr) as [o tr']; simpl.
  destruct o as [v | v]; destruct (instanceof_Error v) eqn:E; auto.
Qed.

Lemma instanceof_Error_truthy e : instanceof_Error e = true -> truthy e = true.
Proof. destruct e; simpl; congruence. Qed.

Lemma assert_loop_stops asserts res e tr :
  truthy e = true -> assert_loop asserts res e tr = (e, tr).
Proof. intros He. destruct asserts; simpl; [reflexivity | now rewrite He]. Qed.

Lemma assert_loop_first_failure asserts res tr :
  assert_loop asserts res VUndefined tr =
  match first_failure asserts res tr with
  | (Some e, tr') => (e, tr')
  | (None, tr') => (VUndefined, tr')
  end.
Proof.
  revert tr. induction asserts as [| fn rest IH]; intros tr; simpl; [reflexivity |].
  pose proof (assertFunction_cases fn res tr) as Hc.
  destruct (assertFunction fn res tr) as [e tr']; simpl in Hc.
  destruct Hc as [-> | He].
  - simpl. apply IH.
  - rewrite He. apply assert_loop_stops. now apply instanceof_Error_truthy.
Qed.

Lemma first_failure_is_Error asserts res tr e tr' :
  first_failure asserts res tr = (Some e, tr') -> instanceof_Error e = true.
Proof.
  revert tr. induction asserts as [| fn rest IH]; intros tr; simpl; [congruence |].
  destruct (assertFunction fn res tr) as [e0 tr0].
  destruct (instanceof_Error e0) eqn:E; [| apply IH].
  intros [= <- <-]. exact E.
Qed.

Lemma assert_error_reported asserts resError res tr :
  (let '(e, tr') := assert_error asserts resError res tr in (or_else e VNull, tr'))
  = reported asserts resError res tr.
Proof.
  unfold assert_error, reported, or_else.
  destruct res as [r |]; simpl.
  - rewrite assert_loop_first_failure.
    destruct (first_failure asserts (Some r) tr) as [[e |] tr'] eqn:F.
    + apply first_failure_is_Error in F. apply instanceof_Error_truthy in F.
      rewrite F. simpl. now rewrite F.
    + simpl. destruct (truthy resError) eqn:T; simpl; now rewrite ?T.
  - destruct (truthy resError) eqn:T; simpl.
    + rewrite assert_loop_stops by exact T. rewrite T. simpl. now rewrite T.
    + rewrite assert_loop_first_failure.
      destruct (first_failure asserts None tr) as [[e |] tr'] eqn:F.
      * apply first_failure_is_Error in F. apply instanceof_Error_truthy in F.
        rewrite F. simpl. now rewrite F.
      * simpl. reflexivity.
Qed.

Lemma assert_reported asserts resError res cb tr :
  assert asserts resError res (Some cb) tr
  = call cb [ActVal (fst (reported asserts resError res tr)); ActRes res]
         (snd (reported asserts resError res tr)).
Proof.
  unfold assert.
  pose proof (assert_error_reported asserts resError res tr) as Hr.
  destruct (assert_error asserts resError res tr) as [e tr'].
  rewrite <- Hr. reflexivity.
Qed.

Lemma first_failure_extends asserts res tr :
  exists evs, forallb is_call evs = true
              /\ snd (first_failure asserts res tr) = tr ++ evs.
Proof.
  revert tr. induction asserts as [| fn rest IH]; intros tr; simpl.
  - exists []. now rewrite app_nil_r.
  - assert (exists evs, forallb is_call evs = true
                        /\ snd (assertFunction fn res tr) = tr ++ evs) as (e1 & K1 & E1).
    { unfold assertFunction.
      destruct fn; simpl; try (exists []; now rewrite app_nil_r).
      eexists; split; [| reflexivity]. reflexivity. }
    destruct (assertFunction fn res tr) as [e tr0]; simpl in E1; subst tr0.
    destruct (instanceof_Error e).
    + exists e1. now split.
    + destruct (IH (tr ++ e1)) as (e2 & K2 & E2).
      exists (e1 ++ e2). rewrite forallb_app, K1, K2, E2, app_assoc. now split.
Qed.

Lemma reported_extends asserts resError res tr :
  exists evs, forallb is_call evs = true
              /\ snd (reported asserts resError res tr) = tr ++ evs.
Proof.
  destruct (first_failure_extends asserts res tr) as (evs & C & E).
  unfold reported.
  destruct res as [r |]; [| destruct (truthy resError)];
    try (exists []; now rewrite app_nil_r);
    destruct (first_failure asserts _ tr) as [[e |] tr']; simpl in *;
    exists evs; now split.
Qed.

Lemma first_failure_member a asserts res :
  In a asserts ->
  (forall tr, instanceof_Error (fst (assertFunction a res tr)) = true) ->
  forall tr, exists e tr', first_failure asserts res tr = (Some e, tr').
Proof.
  intros Hin Ha. induction asserts as [| fn rest IH]; [destruct Hin |].
  intros tr. simpl.
  destruct (assertFunction fn res tr) as [e tr0] eqn:E.
  destruct (instanceof_Error e) eqn:Ie; [eauto |].
  destruct Hin as [-> | Hin]; [| now apply IH].
  specialize (Ha tr). rewrite E in Ha. simpl in Ha. congruence.
Qed.

Lemma drain_awaited promises tr : drain promises tr = tr ++ awaited promises.
Proof.
  revert tr. induction promises as [| [p |] rest IH]; intros tr; simpl.
  - now rewrite app_nil_r.
  - unfold await. rewrite IH. now rewrite <- app_assoc.
  - apply IH.
Qed.

Lemma awaited_fulfilled (promises : list (option Promise)) :
  awaited (fulfilled promises) = awaited promises.
Proof.
  unfold fulfilled.
  induction promises as [| [p |] rest IH]; simpl; now rewrite ?IH.
Qed.

Lemma first_failure_app passed failing later res tr tr1 e tr2 :
  pass_all passed res tr = Some tr1 ->
  assertFunction failing res tr1 = (e, tr2) ->
  instanceof_Error e = true ->
  first_failure (passed ++ failing :: later) res tr = (Some e, tr2).
Proof.
  revert tr. induction passed as [| fn rest IH]; intros tr; simpl.
  - intros [= ->] -> ->. reflexivity.
  - destruct (assertFunction fn res tr) as [e0 tr0].
    destruct (instanceof_Error e0); [discriminate | apply IH].
Qed.

Lemma first_failure_none asserts res tr tr1 :
  pass_all asserts res tr = Some tr1 <-> first_failure asserts res tr = (None, tr1).
Proof.
  revert tr. induction asserts as [| fn rest IH]; intros tr; simpl.
  - split; congruence.
  - destruct (assertFunction fn res tr) as [e0 tr0].
    destruct (instanceof_Error e0); [split; discriminate | apply IH].
Qed.

End ReportFacts.

(** ** The assertion loop: short circuit and precedence *)

Section Engine.

Context `{Host}.

(** C1. When the first entries of the pending list pass and the next one
    fails, completion calls the callback with exactly the error of that
    entry, at the trace reached right after evaluating it: the result is
    the one obtained without the later entries, so they are never
    evaluated. *)
Theorem first_failure_short_circuits
    (passed : list Assert) (failing : Assert) (later : list Assert)
    (resError : JsVal) (r : Response) (e : JsVal) (cb : JsFun)
    (tr tr1 tr2 : Trace) :
  pass_all passed (Some r) tr = Some tr1 ->
  assertFunction failing (Some r) tr1 = (e, tr2) ->
  instanceof_Error e = true ->
  assert (passed ++ failing :: later) resError (Some r) (Some cb) tr
    = call cb [ActVal e; ActRes (Some r)] tr2
  /\ assert (passed ++ failing :: later) resError (Some r) (Some cb) tr
    = assert (passed ++ [failing]) resError (Some r) (Some cb) tr.
Proof.
  intros Hpass Hfail He.
  assert (forall l, assert (passed ++ failing :: l) resError (Some r) (Some cb) tr
                    = call cb [ActVal e; ActRes (Some r)] tr2) as Hall.
  { intros l. unfold assert.
    pose proof (assert_error_reported (passed ++ failing :: l) resError (Some r) tr) as Hr.
    unfold reported in Hr.
    rewrite (first_failure_app passed failing l (Some r) tr tr1 e tr2) in Hr by assumption.
    destruct (assert_error (passed ++ failing :: l) resError (Some r) tr) as [e' tr'].
    injection Hr as -> ->. reflexivity. }
  split; [apply Hall |]. now rewrite !Hall.
Qed.

(** C2. The callback is called once, with the error selected by the
    precedence of [reported]: the transport error when there is no
    response (no expectation is evaluated), else the error of the first
    failing expectation, else the transport error if there is one, else
    [null]. *)
Theorem completion_precedence
    (asserts : list Assert) (resError : JsVal) (res : option Response)
    (cb : JsFun) (tr : Trace) :
  assert asserts resError res (Some cb) tr
    = call cb [ActVal (fst (reported asserts resError res tr)); ActRes res]
           (snd (reported asserts resError res tr))
  /\ (res = None -> truthy resError = true ->
      reported asserts resError res tr = (resError, tr))
  /\ (forall e tr', (is_Some res \/ truthy resError = false) ->
      first_failure asserts res tr = (Some e, tr') ->
      reported asserts resError res tr = (e, tr'))
  /\ (forall tr', is_Some res -> pass_all asserts res tr = Some tr' ->
      truthy resError = true ->
      reported asserts resError res tr = (resError, tr'))
  /\ (forall tr', pass_all asserts res tr = Some tr' ->
      truthy resError = false ->
      reported asserts resError res tr = (VNull, tr')).
Proof.
  split; [apply assert_reported |].
  unfold reported. repeat split.
  - intros -> ->. reflexivity.
  - intros e tr' Hres F. destruct res as [r |].
    + now rewrite F.
    + destruct Hres as [[? [=]] | ->]. now rewrite F.
  - intros tr' [r ->] P T. apply first_failure_none in P. now rewrite P, T.
  - intros tr' P T. apply first_failure_none in P. rewrite P, T.
    now destruct res.
Qed.

End Engine.

(** The short circuit on a status check and a counting predicate that pass,
    a predicate that fails, and three entries that are never reached. *)
Lemma first_failure_short_circuits_witness :
  @pass_all Reference.host [AStatus 200; AFunction fn_once] (Some res200) []
    = Some [EvCall 6 [ActRes (Some res200)]]
  /\ @assertFunction Reference.host (AFunction fn_bad) (Some res200)
       [EvCall 6 [ActRes (Some res200)]]
     = (VError "bad" [],
        [EvCall 6 [ActRes (Some res200)]; EvCall 2 [ActRes (Some res200)]])
  /\ instanceof_Error (VError "bad" []) = true
  /\ @assert Reference.host
       ([AStatus 200; AFunction fn_once] ++ AFunction fn_bad
          :: [AFunction fn_late; AFunction fn_once; AStatus 404])
       VUndefined (Some res200) (Some fn_done) []
     = (Return VUndefined,
        [EvCall 6 [ActRes (Some res200)]; EvCall 2 [ActRes (Some res200)];
         EvCall 9 [ActVal (VError "bad" []); ActRes (Some res200)]]).
Proof.
  assert (@pass_all Reference.host [AStatus 200; AFunction fn_once] (Some res200) []
          = Some [EvCall 6 [ActRes (Some res200)]]) as H1 by reflexivity.
  assert (@assertFunction Reference.host (AFunction fn_bad) (Some res200)
            [EvCall 6 [ActRes (Some res200)]]
          = (VError "bad" [],
             [EvCall 6 [ActRes (Some res200)]; EvCall 2 [ActRes (Some res200)]]))
    as H2 by reflexivity.
  assert (instanceof_Error (VError "bad" []) = true) as H3 by reflexivity.
  split; [exact H1 | split; [exact H2 | split; [exact H3 |]]].
  destruct (@first_failure_short_circuits Reference.host
              [AStatus 200; AFunction fn_once] (AFunction fn_bad)
              [AFunction fn_late; AFunction fn_once; AStatus 404]
              VUndefined res200 (VError "bad" []) fn_done [] _ _ H1 H2 H3) as [E _].
  rewrite E. reflexivity.
Defined.

(** The four ranks of the precedence, one completion each. *)
Lemma completion_precedence_witness :
  (* no response, a transport error: nothing is evaluated *)
  @assert Reference.host [AFunction fn_once; AStatus 200] (VError "ECONNREFUSED" [])
     None (Some fn_done) []
   = (Return VUndefined, [EvCall 9 [ActVal (VError "ECONNREFUSED" []); ActRes None]])
  (* a response and a transport error: the failing expectation comes first *)
  /\ fst (@reported Reference.host [AFunction fn_ok; AFunction fn_bad; AFunction fn_late]
            (VError "Internal Server Error" []) (Some res200) [])
     = VError "bad" []
  (* all pass, the transport error remains *)
  /\ fst (@reported Reference.host [AFunction fn_ok; AStatus 200]
            (VError "Internal Server Error" []) (Some res200) [])
     = VError "Internal Server Error" []
  (* all pass, no transport error *)
  /\ fst (@reported Reference.host [AFunction fn_ok; AStatus 200] VNull (Some res200) [])
     = VNull.
Proof.
  split.
  { destruct (@completion_precedence Reference.host [AFunction fn_once; AStatus 200]
                (VError "ECONNREFUSED" []) None fn_done []) as (E & T & _).
    rewrite E, (T eq_refl eq_refl). reflexivity. }
  split.
  { destruct (@completion_precedence Reference.host
                [AFunction fn_ok; AFunction fn_bad; AFunction fn_late]
                (VError "Internal Server Error" []) (Some res200) fn_done [])
      as (_ & _ & F & _).
    rewrite (F (VError "bad" [])
               [EvCall 1 [ActRes (Some res200)]; EvCall 2 [ActRes (Some res200)]]);
      [reflexivity | left; eexists; reflexivity | reflexivity]. }
  split.
  { destruct (@completion_precedence Reference.host [AFunction fn_ok; AStatus 200]
                (VError "Internal Server Error" []) (Some res200) fn_done [])
      as (_ & _ & _ & P & _).
    rewrite (P [EvCall 1 [ActRes (Some res200)]]);
      [reflexivity | eexists; reflexivity | reflexivity | reflexivity]. }
  { destruct (@completion_precedence Reference.host [AFunction fn_ok; AStatus 200]
                VNull (Some res200) fn_done [])
      as (_ & _ & _ & _ & N).
    rewrite (N [EvCall 1 [ActRes (Some res200)]]); reflexivity. }
Defined.

(** ** The completion trigger *)

Lemma sends_app tr1 tr2 : sends (tr1 ++ tr2) = (sends tr1 + sends tr2)%nat.
Proof. unfold sends. now rewrite List.filter_app, length_app. Qed.

(** C3 (as amended). The completion trigger has no guard of its own: every
    call of [end] invokes the underlying client's [end] once more and
    leaves one more request outstanding, so [k] calls hand [k] requests to
    the client; a single declaration with two trailing functions already
    triggers completion twice. *)
Theorem end_sends_on_every_call (cb : option JsFun) (st : State) (k : nat)
    (n : Z) (f g : JsFun) :
  sends (trace (end_ cb st)) = S (sends (trace st))
  /\ length (pending (end_ cb st)) = S (length (pending st))
  /\ inst (end_ cb st) = inst st
  /\ sends (trace (Nat.iter k (end_ cb) st)) = (k + sends (trace st))%nat
  /\ sends (trace (expect [ArgVal (VNum n); ArgFun f; ArgFun g] st))
     = (2 + sends (trace st))%nat.
Proof.
  assert (forall c s, sends (trace (end_ c s)) = S (sends (trace s))) as Hone.
  { intros c s. unfold end_; simpl. rewrite sends_app. reflexivity || (cbn; lia). }
  split; [apply Hone |].
  split; [unfold end_; simpl; rewrite length_app; simpl; lia |].
  split; [reflexivity |].
  split.
  - induction k as [| k IH]; [reflexivity |].
    rewrite Nat.iter_succ, Hone, IH. reflexivity.
  - simpl. unfold push; simpl. unfold end_; simpl.
    rewrite !sends_app. cbn. lia.
Qed.

(** C3, as stated, fails: two calls of [end] on one instance hand two
    requests to the underlying client. *)
Lemma end_twice_sends_twice :
  sends (trace probe_state) = 0%nat
  /\ sends (trace (end_ (Some fn_done) (end_ (Some fn_done) probe_state))) = 2%nat
  /\ ~ (sends (trace (end_ (Some fn_done) (end_ (Some fn_done) probe_state))) <= 1)%nat.
Proof. split; [reflexivity | split; [reflexivity |]]. vm_compute. lia. Qed.

(** ** The errors of the private checks *)

Section Payloads.

Context `{Host}.

(** C4 (as amended). An error produced by a body mismatch, structural or
    string or pattern, carries [expected] (the declared value), [actual]
    (the parsed body of the response) and [showDiff]; an error produced by
    a status mismatch is a plain [Error] that carries neither [expected]
    nor [actual]. *)
Theorem body_mismatch_carries_payload (r : Response) :
  (forall expected e,
     assertBody expected (Some r) = Return e -> instanceof_Error e = true ->
     has_prop "expected" e = true /\ has_prop "actual" e = true
     /\ get_prop "expected" (error_props e) = Some expected
     /\ get_prop "actual" (error_props e) = Some (body r)
     /\ get_prop "showDiff" (error_props e) = Some (VBool true))
  /\ (forall expected e,
        assertStatus expected (Some r) = Return e -> instanceof_Error e = true ->
        status r <> expected
        /\ has_prop "expected" e = false /\ has_prop "actual" e = false).
Proof.
  split.
  - intros expected e. unfold assertBody.
    assert (forall msg, e = error msg expected (body r) ->
              has_prop "expected" e = true /\ has_prop "actual" e = true
              /\ get_prop "expected" (error_props e) = Some expected
              /\ get_prop "actual" (error_props e) = Some (body r)
              /\ get_prop "showDiff" (error_props e) = Some (VBool true)) as Herr.
    { intros msg ->. repeat split. }
    destruct (String.eqb (typeof expected) "object" && negb (instanceof_RegExp expected)).
    + destruct (assertEquals expected (body r)); intros [= <-] He;
        [discriminate | eapply Herr; reflexivity].
    + destruct (negb (strict_equals expected (text r))); [| intros [= <-]; discriminate].
      destruct expected; try (intros [= <-] _; eapply Herr; reflexivity).
      destruct (negb (regexp_test r0 (to_str (text r)))); intros [= <-] He;
        [eapply Herr; reflexivity | discriminate].
  - intros expected e. unfold assertStatus.
    destruct (status r =? expected) eqn:E; simpl; intros [= <-] He; [discriminate |].
    apply Z.eqb_neq in E. repeat split; assumption.
Qed.

End Payloads.

(** A structural body mismatch and a status mismatch on the same response. *)
Lemma body_mismatch_carries_payload_witness :
  @assertBody Reference.host (VObj [("a", VNum 1)]) (Some res404)
    = Return (error "expected [object Object] response body, got [object Object]"
                    (VObj [("a", VNum 1)]) (VObj [("a", VNum 2)]))
  /\ get_prop "expected"
       (error_props (error "expected [object Object] response body, got [object Object]"
                           (VObj [("a", VNum 1)]) (VObj [("a", VNum 2)])))
     = Some (VObj [("a", VNum 1)])
  /\ (exists e, @assertStatus Reference.host 200 (Some res404) = Return e
                /\ instanceof_Error e = true /\ has_prop "expected" e = false).
Proof.
  destruct (@body_mismatch_carries_payload Reference.host res404) as [B S].
  split; [reflexivity |]. split.
  - apply (B (VObj [("a", VNum 1)]) _ eq_refl eq_refl).
  - eexists. split; [reflexivity |]. split; [reflexivity |].
    apply (S 200 _ eq_refl eq_refl).
Defined.

(** C4, as stated, fails for the status check: its error has no [expected]
    and no [actual] property. *)
Lemma status_mismatch_has_no_payload :
  exists msg,
    @assertStatus Reference.host 200 (Some res404) = Return (VError msg [])
    /\ has_prop "expected" (VError msg []) = false
    /\ has_prop "actual" (VError msg []) = false.
Proof. eexists. repeat split. Qed.

(** ** Construction *)

Lemma prefix_EmptyString s : String.prefix EmptyString s = true.
Proof. now destruct s. Qed.

(** C5 (as amended). The constructor resolves the URL by the variant of
    the handle: an address string is followed by the path unchanged; for a
    running server the URL is [scheme://host:port] followed by the path,
    with [https] exactly when [secure] is set and [127.0.0.1] when no host
    is given, and nothing is started; a server factory is told to listen on
    port 0 first, and the scheme is then [http] whatever [secure] says; any
    other handle makes the constructor throw, with no listen and no
    request, and the message thrown is [superdeno is unable to identify or
    create a valid test server]. *)
Theorem constructor_resolves_url
    (m path : string) (host : option string) (secure : option bool) (tr : Trace) :
  (forall s,
     constructor (HString s) m path host secure tr
     = (Built {| method := toUpperCase m; url := s +:+ path; maxRedirects := 0;
                 app := HString s; server := None; asserts := [] |}, tr))
  /\ (forall srv,
        constructor (HServer srv) m path host secure tr
        = (Built {| method := toUpperCase m;
                    url := serverAddress srv path host (default false secure);
                    maxRedirects := 0; app := HServer srv; server := Some srv;
                    asserts := [] |}, tr))
  /\ (forall l,
        constructor (HListener l) m path host secure tr
        = (Built {| method := toUpperCase m;
                    url := serverAddress (listen l 0) path host false;
                    maxRedirects := 0; app := HListener l;
                    server := Some (listen l 0); asserts := [] |},
           tr ++ [EvListen (listener_id l) 0]))
  /\ (forall srv sec,
        serverAddress srv path None sec
        = (if sec then "https" else "http") +:+ "://" +:+ "127.0.0.1" +:+ ":"
          +:+ pretty (addr_port srv) +:+ path)
  /\ (forall srv sec c h,
        serverAddress srv path (Some (String c h)) sec
        = (if sec then "https" else "http") +:+ "://" +:+ String c h +:+ ":"
          +:+ pretty (addr_port srv) +:+ path)
  /\ (forall srv h sec,
        String.prefix "https://" (serverAddress srv path h sec) = sec)
  /\ (forall v,
        constructor (HOther v) m path host secure tr
        = (Raised (VError
                     "superdeno is unable to identify or create a valid test server"
                     []),
           tr)).
Proof.
  repeat split.
  intros srv h sec. unfold serverAddress.
  destruct sec; simpl; [apply prefix_EmptyString | reflexivity].
Qed.

(** C5, as stated, fails on the message: for a handle that is neither a
    string, a server nor a factory, the error thrown carries the message
    with the words [superdeno is] in front, not the bare text. *)
Lemma constructor_message_is_prefixed :
  constructor (HOther VNull) "get" "/user" None None []
    = (Raised (VError
                 "superdeno is unable to identify or create a valid test server" []),
       [])
  /\ constructor (HOther VNull) "get" "/user" None None []
     <> (Raised (VError "unable to identify or create a valid test server" []), []).
Proof. split; [reflexivity | discriminate]. Qed.

(** ** Declaration *)

Lemma inst_end_ cb st : inst (end_ cb st) = inst st.
Proof. reflexivity. Qed.

Lemma inst_end_if_function x st : inst (end_if_function x st) = inst st.
Proof. destruct x; reflexivity. Qed.

Lemma inst_push a st :
  inst (push a st) = with_asserts (asserts (inst st) ++ [a]) (inst st).
Proof. reflexivity. Qed.

Lemma with_asserts_twice l a t :
  with_asserts (asserts (with_asserts l t) ++ [a]) (with_asserts l t)
  = with_asserts (l ++ [a]) t.
Proof. reflexivity. Qed.

(** C6. A declaration with a numeric status and a second argument that is
    not a function appends two expectations, the status check and then the
    body check; every declaration leaves the instance as it was except
    that one or two entries are added at the end of its list. *)
Theorem expect_appends (args rest : list Arg) (n : Z) (bv : JsVal) (st : State) :
  asserts (inst (expect (ArgVal (VNum n) :: ArgVal bv :: rest) st))
    = asserts (inst st) ++ [AStatus n; ABody bv]
  /\ exists new : list Assert,
       (1 <= length new <= 2)%nat
       /\ inst (expect args st) = with_asserts (asserts (inst st) ++ new) (inst st).
Proof.
  split.
  - unfold expect. cbn [arg nth length Nat.ltb Nat.leb].
    rewrite !inst_push, !inst_end_if_function. simpl.
    now rewrite <- app_assoc.
  - assert (forall a s, exists new : list Assert,
              (1 <= length new <= 2)%nat
              /\ inst (push a s) = with_asserts (asserts (inst s) ++ new) (inst s))
      as Hone.
    { intros a s. exists [a]. split; [simpl; lia | apply inst_push]. }
    assert (forall a a' s, exists new : list Assert,
              (1 <= length new <= 2)%nat
              /\ inst (push a' (push a s))
                 = with_asserts (asserts (inst s) ++ new) (inst s))
      as Htwo.
    { intros a a' s. exists [a; a']. split; [simpl; lia |].
      rewrite !inst_push. simpl. unfold with_asserts; simpl.
      now rewrite <- app_assoc. }
    assert (forall x y s, inst (end_if_function y (end_if_function x s)) = inst s)
      as Hend.
    { intros x y s. now rewrite !inst_end_if_function. }
    unfold expect.
    destruct (arg args 0) as [av | f]; [| apply Hone].
    set (s' := end_if_function (arg args 2) (end_if_function (arg args 1) st)).
    assert (inst s' = inst st) as Hs' by apply Hend.
    rewrite <- Hs'.
    destruct av; try (destruct (arg args 1) as [[] |]; apply Hone).
    destruct (arg args 1) as [bv' |]; [| apply Hone].
    destruct (1 <? length args)%nat; [apply Htwo | apply Hone].
Qed.

(** ** The predicate expectation *)

Section Predicate.

Context `{Host}.


End Predicate.


(** ** The header expectation *)

Section Header.

Context `{Host}.

Lemma assertHeader_present (r : Response) (field : string) (expected : JsVal) :
  header_value r field <> VUndefined ->
  assertHeader field expected (Some r)
  = if (isArray (header_value r field)
        && strict_equals (VStr (to_str (header_value r field))) expected)
       || strict_equals expected (header_value r field)
    then Return VUndefined
    else match expected with
         | VRegExp re =>
             if negb (regexp_test re (to_str (header_value r field)))
             then Return (VError ("expected " +:+ dq +:+ field +:+ dq +:+ " matching "
                                  +:+ to_str expected +:+ ", got " +:+ dq
                                  +:+ to_str (header_value r field) +:+ dq) [])
             else Return VUndefined
         | _ =>
             Return (VError ("expected " +:+ dq +:+ field +:+ dq +:+ " of " +:+ dq
                             +:+ to_str expected +:+ dq +:+ ", got " +:+ dq
                             +:+ to_str (header_value r field) +:+ dq) [])
         end.
Proof.
  unfold assertHeader. fold (header_value r field).
  destruct (header_value r field); congruence.
Qed.

(** C8. The header check reads the header under the lower-cased name, so
    names that differ only in case give the same verdict; it fails with the
    missing-header error when there is no such header; against a pattern it
    passes exactly when the pattern matches the value (an array through its
    string rendering); against any other expected value it passes exactly
    when the value is strictly equal to it, or is an array whose string
    rendering is.  A header that the response holds under a lower-case key
    is thus found from any spelling of its name. *)
Theorem header_expectation (r : Response) (field : string) (expected : JsVal) :
  (forall field', toLowerCase field' = toLowerCase field ->
     passes (assertHeader field' expected (Some r))
     = passes (assertHeader field expected (Some r)))
  /\ (header_value r field = VUndefined ->
      assertHeader field expected (Some r)
      = Return (VError ("expected " +:+ dq +:+ field +:+ dq +:+ " header field") []))
  /\ (forall re, expected = VRegExp re -> header_value r field <> VUndefined ->
      passes (assertHeader field expected (Some r))
      = regexp_test re (to_str (header_value r field)))
  /\ (instanceof_RegExp expected = false -> header_value r field <> VUndefined ->
      passes (assertHeader field expected (Some r))
      = strict_equals expected (header_value r field)
        || (isArray (header_value r field)
            && strict_equals (VStr (to_str (header_value r field))) expected))
  /\ (forall k v, headers r !! k = Some v -> toLowerCase field = k ->
      header_value r field = v).
Proof.
  assert (forall f, header_value r f = VUndefined ->
            assertHeader f expected (Some r)
            = Return (VError ("expected " +:+ dq +:+ f +:+ dq +:+ " header field") []))
    as Habsent.
  { intros f Hf. unfold assertHeader. fold (header_value r f). now rewrite Hf. }
  assert (forall f, header_value r f <> VUndefined ->
            passes (assertHeader f expected (Some r))
            = match expected with
              | VRegExp re => regexp_test re (to_str (header_value r f))
              | _ => strict_equals expected (header_value r f)
                     || (isArray (header_value r f)
                         && strict_equals (VStr (to_str (header_value r f))) expected)
              end) as Hpresent.
  { intros f Hf. rewrite assertHeader_present by exact Hf.
    destruct expected;
      try (destruct (isArray (header_value r f)
                     && strict_equals (VStr (to_str (header_value r f))) _);
           destruct (strict_equals _ (header_value r f)); reflexivity).
    replace (strict_equals (VRegExp r0) (header_value r f)) with false
      by (now destruct (header_value r f)).
    rewrite andb_false_r. simpl.
    now destruct (regexp_test r0 (to_str (header_value r f))). }
  split; [| split; [apply Habsent | split; [| split]]].
  - intros field' Hcase.
    assert (header_value r field' = header_value r field) as Hsame
      by (unfold header_value; now rewrite Hcase).
    assert (header_value r field = VUndefined \/ header_value r field <> VUndefined)
      as [Hu | Hp] by (destruct (header_value r field); auto; right; discriminate).
    + rewrite (Habsent field Hu), (Habsent field') by congruence. reflexivity.
    + rewrite (Hpresent field Hp), (Hpresent field') by congruence.
      now rewrite Hsame.
  - intros re -> Hp. now rewrite Hpresent.
  - intros Hre Hp. rewrite Hpresent by exact Hp. now destruct expected.
  - intros k v Hk <-. unfold header_value. now rewrite Hk.
Qed.

End Header.

(** Header checks against a response with a single-valued and a
    multi-valued header. *)
Lemma header_expectation_witness :
  (* present and equal, whatever the case of the declared name *)
  passes (@assertHeader Reference.host "Content-Type" (VStr "application/json")
            (Some res200)) = true
  /\ passes (@assertHeader Reference.host "CONTENT-TYPE" (VStr "application/json")
               (Some res200))
     = passes (@assertHeader Reference.host "Content-Type" (VStr "application/json")
                 (Some res200))
  (* absent *)
  /\ @assertHeader Reference.host "X-Missing" (VStr "1") (Some res200)
     = Return (VError ("expected " +:+ dq +:+ "X-Missing" +:+ dq +:+ " header field") [])
  (* a pattern *)
  /\ passes (@assertHeader Reference.host "Content-Type"
               (VRegExp {| source := "json"; flags := EmptyString |}) (Some res200))
     = true
  (* an array value is compared through its string rendering *)
  /\ passes (@assertHeader Reference.host "Set-Cookie" (VStr "a=1,b=2") (Some res200))
     = true.
Proof.
  split.
  { destruct (@header_expectation Reference.host res200 "Content-Type"
                (VStr "application/json")) as (_ & _ & _ & E & _).
    rewrite E; [reflexivity | reflexivity | vm_compute; discriminate]. }
  split.
  { destruct (@header_expectation Reference.host res200 "Content-Type"
                (VStr "application/json")) as (C & _).
    apply C. reflexivity. }
  split.
  { destruct (@header_expectation Reference.host res200 "X-Missing" (VStr "1"))
      as (_ & A & _).
    apply A. reflexivity. }
  split.
  { destruct (@header_expectation Reference.host res200 "Content-Type"
                (VRegExp {| source := "json"; flags := EmptyString |}))
      as (_ & _ & P & _).
    rewrite (P _ eq_refl); [reflexivity | vm_compute; discriminate]. }
  { destruct (@header_expectation Reference.host res200 "Set-Cookie" (VStr "a=1,b=2"))
      as (_ & _ & _ & E & _).
    rewrite E; [reflexivity | reflexivity | vm_compute; discriminate]. }
Defined.

(** ** The completion pipeline *)

Section Pipeline.

Context `{Host}.

Lemma on_response_assert p self err res closing promises tr :
  on_response p self err res closing promises tr
  = assert (asserts self) err res (p_callback p)
           (tr ++ closed_by p ++ awaited promises).
Proof.
  unfold on_response, close, closed_by.
  destruct (p_app p), (p_server p); rewrite drain_awaited;
    simpl; rewrite <- ?app_assoc; reflexivity.
Qed.

(** C9. When the client delivers the response of a pending request, the
    effects follow in this order: the response, the close of the server
    the instance started (if it started one), one await for each
    outstanding transport promise, the evaluation of the expectations
    (calls of the caller's predicates only), and last the callback, with the
    error selected by [reported].  How the awaited promises settle plays no
    part: the outcome is the same as when each of them fulfils. *)
Theorem completion_pipeline_order
    (i : nat) (p : Pending) (cb : JsFun) (err : JsVal) (res : option Response)
    (closing : Closing) (promises : list (option Promise)) (st : State) :
  pending st !! i = Some p ->
  p_callback p = Some cb ->
  exists evaluated : Trace,
    forallb is_call evaluated = true
    /\ snd (reported (asserts (inst st)) err res
              (trace st ++ [EvResponse err res] ++ closed_by p ++ awaited promises))
       = (trace st ++ [EvResponse err res] ++ closed_by p ++ awaited promises)
         ++ evaluated
    /\ trace (respond i err res closing promises st)
       = trace st ++ [EvResponse err res] ++ closed_by p ++ awaited promises
         ++ evaluated
         ++ [EvCall (fn_name cb)
               [ActVal (fst (reported (asserts (inst st)) err res
                               (trace st ++ [EvResponse err res] ++ closed_by p
                                ++ awaited promises)));
                ActRes res]]
    /\ respond i err res closing promises st
       = respond i err res closing (fulfilled promises) st.
Proof.
  intros Hp Hcb.
  destruct (reported_extends (asserts (inst st)) err res
              (trace st ++ [EvResponse err res] ++ closed_by p ++ awaited promises))
    as (evaluated & Hcalls & Hext).
  exists evaluated. split; [exact Hcalls |]. split; [exact Hext |]. split.
  - unfold respond. rewrite Hp, on_response_assert, Hcb.
    rewrite <- !app_assoc, assert_reported. unfold call.
    rewrite Hext. cbv beta iota. cbn [trace].
    rewrite <- !app_assoc. reflexivity.
  - unfold respond. rewrite Hp, !on_response_assert, awaited_fulfilled. reflexivity.
Qed.

End Pipeline.

(** A completion on a server the instance started, with a rejected
    transport promise among those drained. *)
Lemma completion_pipeline_order_witness :
  pending owned_state !! 0%nat
    = Some {| p_server := Some (listen factory 0); p_app := HListener factory;
              p_callback := Some fn_done |}
  /\ trace (@respond Reference.host 0 VNull (Some res200) Closed transport_promises
              owned_state)
     = [EvResponse VNull (Some res200);
        EvClose (listen factory 0);
        EvAwait 1; EvAwait 2;
        EvCall 1 [ActRes (Some res200)];
        EvCall 9 [ActVal VNull; ActRes (Some res200)]].
Proof.
  split; [reflexivity |].
  destruct (@completion_pipeline_order Reference.host 0 _ fn_done VNull (Some res200)
              Closed transport_promises owned_state eq_refl eq_refl)
    as (evaluated & _ & Hext & Htrace & _).
  rewrite Htrace.
  assert (evaluated = [EvCall 1 [ActRes (Some res200)]]) as ->.
  { vm_compute in Hext. injection Hext as <-. reflexivity. }
  reflexivity.
Defined.

(** ** A status declared with an explicit [undefined] body *)

Section UndefinedBody.

Context `{Host}.

Lemma assertBody_undefined (r : Response) :
  passes (assertBody VUndefined (Some r)) = strict_equals VUndefined (text r).
Proof.
  unfold assertBody. destruct (text r); reflexivity.
Qed.

Lemma strict_equals_undefined v : strict_equals VUndefined v = true <-> v = VUndefined.
Proof. destruct v; simpl; split; congruence. Qed.

(** C10. With a numeric status and a second argument that is there but is
    [undefined], the declaration appends the status check and a body check
    for [undefined]; with the status alone it appends the status check only.
    The body check for [undefined] passes exactly when the text of the
    response is [undefined], so completion calls the callback with an error
    whenever the response is missing or has any other text. *)
Theorem undefined_body_is_expected
    (n : Z) (rest : list Arg) (st : State) (resError : JsVal)
    (res : option Response) (cb : JsFun) (tr : Trace) :
  asserts (inst (expect (ArgVal (VNum n) :: ArgVal VUndefined :: rest) st))
    = asserts (inst st) ++ [AStatus n; ABody VUndefined]
  /\ asserts (inst (expect [ArgVal (VNum n)] st)) = asserts (inst st) ++ [AStatus n]
  /\ (forall r, passes (assertBody VUndefined (Some r)) = true <-> text r = VUndefined)
  /\ ((forall r, res = Some r -> text r <> VUndefined) ->
      exists e tr',
        assert (asserts (inst (expect (ArgVal (VNum n) :: ArgVal VUndefined :: rest) st)))
               resError res (Some cb) tr
        = call cb [ActVal e; ActRes res] tr'
        /\ truthy e = true /\ e <> VNull).
Proof.
  assert (asserts (inst (expect (ArgVal (VNum n) :: ArgVal VUndefined :: rest) st))
          = asserts (inst st) ++ [AStatus n; ABody VUndefined]) as Hpair.
  { unfold expect. cbn [arg nth length Nat.ltb Nat.leb].
    rewrite !inst_push, !inst_end_if_function. simpl. now rewrite <- app_assoc. }
  split; [exact Hpair |].
  split; [reflexivity |].
  split.
  { intros r. rewrite assertBody_undefined. apply strict_equals_undefined. }
  intros Htext. rewrite Hpair, assert_reported.
  assert (truthy (fst (reported (asserts (inst st) ++ [AStatus n; ABody VUndefined])
                         resError res tr)) = true) as Htruthy.
  { destruct (first_failure_member (ABody VUndefined)
                (asserts (inst st) ++ [AStatus n; ABody VUndefined]) res)
      with (tr := tr) as (e & tr' & F).
    - apply in_or_app. right. simpl. auto.
    - intros tr0. unfold assertFunction, apply_assert.
      destruct res as [r |]; [| reflexivity].
      specialize (Htext r eq_refl). unfold assertBody.
      destruct (text r); [contradiction | reflexivity ..].
    - pose proof (first_failure_is_Error _ _ _ _ _ F) as He.
      apply instanceof_Error_truthy in He.
      unfold reported. rewrite F.
      destruct res; [exact He |]. now destruct (truthy resError) eqn:T. }
  eexists _, _. split; [reflexivity |]. split; [exact Htruthy |].
  intros Hnull. rewrite Hnull in Htruthy. discriminate.
Qed.

End UndefinedBody.

(** [expect(200, undefined)] against a response with a text. *)
Lemma undefined_body_is_expected_witness :
  asserts (inst (expect [ArgVal (VNum 200); ArgVal VUndefined] probe_state))
    = [AStatus 200; ABody VUndefined]
  /\ asserts (inst (expect [ArgVal (VNum 200)] probe_state)) = [AStatus 200]
  /\ exists e tr',
       @assert Reference.host
         (asserts (inst (expect [ArgVal (VNum 200); ArgVal VUndefined] probe_state)))
         VNull (Some res200) (Some fn_done) []
       = call fn_done [ActVal e; ActRes (Some res200)] tr'
       /\ truthy e = true /\ e <> VNull.
Proof.
  destruct (@undefined_body_is_expected Reference.host 200 [] probe_state VNull
              (Some res200) fn_done []) as (A & B & _ & C).
  split; [exact A |]. split; [exact B |].
  apply C. intros r [= <-]. vm_compute. discriminate.
Defined.

(** ** The model at work

    The cases listed as testable in the specification, run on the
    reference host. *)

Example status_passes :
  @assertStatus Reference.host 200 (Some res200) = Return VUndefined.
Proof. reflexivity. Qed.

Example status_names_both_phrases :
  @assertStatus Reference.host 200 (Some res404)
  = Return (VError ("expected 200 " +:+ dq +:+ "OK" +:+ dq +:+ ", got 404 "
                    +:+ dq +:+ "Not Found" +:+ dq) []).
Proof. reflexivity. Qed.

Example structured_body_passes :
  @assertBody Reference.host (VObj [("a", VNum 1)]) (Some res200) = Return VUndefined.
Proof. reflexivity. Qed.

Example pattern_body :
  passes (@assertBody Reference.host
            (VRegExp {| source := "hello"; flags := EmptyString |}) (Some res200))
  = true
  /\ passes (@assertBody Reference.host
               (VRegExp {| source := "hello"; flags := EmptyString |}) (Some res404))
     = false.
Proof. split; reflexivity. Qed.

Example thrown_string_passes :
  fst (@assertFunction Reference.host
         (AFunction {| fn_name := 8; fn_body := fun _ _ => Throw (VStr "oops") |})
         (Some res200) [])
  = VUndefined.
Proof. reflexivity. Qed.

(** A whole run against a server factory: construction starts the
    listener, [expect(200, fn)] triggers completion before the status
    check is pushed, and the check is nevertheless evaluated when the
    response arrives. *)
Example run_against_factory :
  exists t,
    constructor (HListener factory) "get" "/user" None (Some true) []
      = (Built t, [EvListen 7 0])
    /\ url t = "http://127.0.0.1:49152/user"
    /\ method t = "GET"
    /\ trace (@respond Reference.host 0 VNull (Some res404) Closed []
                (expect [ArgVal (VNum 200); ArgFun fn_done]
                   {| inst := t; trace := [EvListen 7 0]; pending := [] |}))
       = [EvListen 7 0;
          EvSend "GET" "http://127.0.0.1:49152/user" (Some 9%nat);
          EvResponse VNull (Some res404);
          EvClose (listen factory 0);
          EvCall 9 [ActVal (VError ("expected 200 " +:+ dq +:+ "OK" +:+ dq
                                    +:+ ", got 404 " +:+ dq +:+ "Not Found" +:+ dq) []);
                    ActRes (Some res404)]].
Proof. eexists. repeat split. Qed.

(** ** Further properties of the assertion loop *)

Section Loop.

Context `{Host}.

Lemma reported_value asserts resError res tr :
  fst (reported asserts resError res tr) = VNull
  \/ (fst (reported asserts resError res tr) = resError /\ truthy resError = true)
  \/ instanceof_Error (fst (reported asserts resError res tr)) = true.
Proof.
  unfold reported.
  destruct res as [r |]; destruct (truthy resError) eqn:T;
    try (right; left; now split);
    destruct (first_failure asserts _ tr) as [[e |] tr'] eqn:F; simpl; auto;
    right; right; eapply first_failure_is_Error; exact F.
Qed.

Lemma first_failure_pass_app passed rest res tr tr1 :
  pass_all passed res tr = Some tr1 ->
  first_failure (passed ++ rest) res tr = first_failure rest res tr1.
Proof.
  revert tr. induction passed as [| fn l IH]; intros tr; simpl.
  - now intros [= ->].
  - destruct (assertFunction fn res tr) as [e tr0].
    destruct (instanceof_Error e); [discriminate | apply IH].
Qed.

Lemma assertFunction_builtin a res tr :
  is_builtin a = true ->
  assertFunction a res tr = (fst (assertFunction a res []), tr).
Proof. destruct a; [discriminate | reflexivity ..]. Qed.

Lemma first_failure_builtin asserts res tr :
  forallb is_builtin asserts = true ->
  first_failure asserts res tr = (fst (first_failure asserts res []), tr).
Proof.
  revert tr. induction asserts as [| a rest IH]; intros tr Hb; [reflexivity |].
  simpl in Hb. apply andb_prop in Hb as [Ha Hrest]. simpl.
  rewrite (assertFunction_builtin a res tr Ha), (assertFunction_builtin a res [] Ha).
  simpl. destruct (instanceof_Error (fst (assertFunction a res []))); [reflexivity |].
  now rewrite (IH tr Hrest), (IH [] Hrest).
Qed.

(** X1. With no expectation declared, the callback receives the error
    delivered by the client when it is truthy and [null] otherwise, and
    nothing else is called. *)
Theorem assert_without_expectations
    (resError : JsVal) (res : option Response) (cb : JsFun) (tr : Trace) :
  assert [] resError res (Some cb) tr
  = call cb [ActVal (or_else resError VNull); ActRes res] tr.
Proof.
  rewrite assert_reported. unfold reported, or_else. simpl.
  destruct res, (truthy resError); reflexivity.
Qed.

(** X2. The error handed to the callback is never [undefined]: it is
    [null], or the truthy error delivered by the client, or an [Error]
    instance produced by an expectation; a falsy delivered error reaches
    the callback as [null]. *)
Theorem callback_error_is_normalised
    (asserts : list Assert) (resError : JsVal) (res : option Response)
    (cb : JsFun) (tr : Trace) :
  exists e tr',
    assert asserts resError res (Some cb) tr = call cb [ActVal e; ActRes res] tr'
    /\ (e = VNull \/ truthy e = true)
    /\ (e = VNull \/ e = resError \/ instanceof_Error e = true)
    /\ e <> VUndefined.
Proof.
  eexists _, _. split; [apply assert_reported |].
  destruct (reported_value asserts resError res tr) as [E | [[E T] | E]].
  - rewrite E. split; [auto | split; [auto | discriminate]].
  - rewrite E. split; [auto | split; [auto |]].
    intros U. rewrite U in T. discriminate.
  - pose proof (instanceof_Error_truthy _ E) as T. split; [auto | split; [auto |]].
    intros U. rewrite U in E. discriminate.
Qed.

(** X3. Without a callback the expectations are evaluated all the same,
    with the same calls of the caller's predicates, but the error they
    produce is dropped: nothing is returned and nothing is thrown. *)
Theorem assert_without_callback
    (asserts : list Assert) (resError : JsVal) (res : option Response)
    (cb : JsFun) (tr : Trace) :
  fst (assert asserts resError res None tr) = Return VUndefined
  /\ snd (assert asserts resError res None tr)
     = snd (reported asserts resError res tr)
  /\ snd (assert asserts resError res (Some cb) tr)
     = snd (assert asserts resError res None tr)
       ++ [EvCall (fn_name cb)
             [ActVal (fst (reported asserts resError res tr)); ActRes res]].
Proof.
  assert (snd (assert asserts resError res None tr)
          = snd (reported asserts resError res tr)) as Hsnd.
  { unfold assert.
    pose proof (assert_error_reported asserts resError res tr) as Hr.
    destruct (assert_error asserts resError res tr) as [e tr'].
    rewrite <- Hr. reflexivity. }
  split; [| split; [exact Hsnd |]].
  - unfold assert. now destruct (assert_error asserts resError res tr).
  - rewrite Hsnd, assert_reported. reflexivity.
Qed.

(** X4. When the client delivers neither a response nor an error, a
    private check at the head of the list reads a property of [undefined]:
    the callback receives the resulting [TypeError], a plain [Error]
    instance, and no later entry is evaluated. *)
Theorem missing_response_fails_private_check
    (a : Assert) (rest : list Assert) (resError : JsVal) (cb : JsFun) (tr : Trace) :
  is_builtin a = true ->
  truthy resError = false ->
  exists e,
    assert (a :: rest) resError None (Some cb) tr
    = call cb [ActVal e; ActRes None] tr
    /\ instanceof_Error e = true
    /\ error_props e = [].
Proof.
  intros Ha T.
  assert (exists e, assertFunction a None tr = (e, tr)
                    /\ instanceof_Error e = true /\ error_props e = [])
    as (e & Ea & He & Hp).
  { destruct a as [f | n | b | name v]; [discriminate | ..];
      unfold assertFunction, apply_assert, assertStatus, assertBody, assertHeader.
    - eexists. repeat split.
    - destruct (String.eqb (typeof b) "object" && negb (instanceof_RegExp b));
        eexists; repeat split.
    - eexists. repeat split. }
  exists e. split; [| split; assumption].
  rewrite assert_reported. unfold reported. rewrite T. simpl.
  rewrite Ea, He. reflexivity.
Qed.

Lemma pattern_free_builtin a : pattern_free a = true -> is_builtin a = true.
Proof. now destruct a. Qed.

Lemma forallb_pattern_free_builtin asserts :
  forallb pattern_free asserts = true -> forallb is_builtin asserts = true.
Proof.
  induction asserts as [| a l IH]; [reflexivity |]. simpl.
  intros Hl. apply andb_prop in Hl as [Ha Hl].
  now rewrite (pattern_free_builtin a Ha), (IH Hl).
Qed.

Lemma pass_all_builtin asserts res tr tr1 :
  forallb is_builtin asserts = true ->
  pass_all asserts res tr = Some tr1 -> tr1 = tr.
Proof.
  revert tr. induction asserts as [| a l IH]; intros tr Hb; simpl.
  - now intros [= <-].
  - simpl in Hb. apply andb_prop in Hb as [Ha Hl].
    rewrite (assertFunction_builtin a res tr Ha).
    destruct (instanceof_Error (fst (assertFunction a res []))); [discriminate |].
    apply (IH tr Hl).
Qed.

(** X5. Status checks, and body and header checks against a value that is
    not a pattern, are transparent when they pass: with a response present
    they leave no event, and completion over a list that starts with such
    passing checks is completion over the remaining entries. *)
Theorem passing_checks_are_transparent
    (passed rest : list Assert) (resError : JsVal) (r : Response)
    (cb : JsFun) (tr tr1 : Trace) :
  forallb pattern_free passed = true ->
  pass_all passed (Some r) tr = Some tr1 ->
  tr1 = tr
  /\ assert (passed ++ rest) resError (Some r) (Some cb) tr
     = assert rest resError (Some r) (Some cb) tr.
Proof.
  intros Hf Hp.
  assert (tr1 = tr) as ->
    by (eapply pass_all_builtin; [apply forallb_pattern_free_builtin |]; eassumption).
  split; [reflexivity |].
  rewrite !assert_reported. unfold reported.
  now rewrite (first_failure_pass_app passed rest (Some r) tr tr Hp).
Qed.

(** X6. A list made only of status checks and of body and header checks
    against values that are not patterns has no effect of its own: the
    error handed to the callback does not depend on what happened before,
    and the call of the callback is the only event added. *)
Theorem pattern_free_checks_are_pure
    (asserts : list Assert) (resError : JsVal) (res : option Response)
    (cb : JsFun) (tr : Trace) :
  forallb pattern_free asserts = true ->
  assert asserts resError res (Some cb) tr
  = call cb [ActVal (fst (reported asserts resError res [])); ActRes res] tr.
Proof.
  intros Hf. apply forallb_pattern_free_builtin in Hf as Hb.
  rewrite assert_reported.
  assert (reported asserts resError res tr
          = (fst (reported asserts resError res []), tr)) as ->; [| reflexivity].
  unfold reported.
  rewrite (first_failure_builtin asserts res tr Hb).
  destruct (first_failure asserts res []) as [[e |] t0];
    destruct res, (truthy resError); reflexivity.
Qed.

(** X7. Evaluating the expectations and calling the callback only adds
    calls of the caller's functions after the events already recorded: no
    request is handed to the client, nothing is listened to or closed. *)
Theorem assert_only_calls
    (asserts : list Assert) (resError : JsVal) (res : option Response)
    (fn : option JsFun) (tr : Trace) :
  exists evs,
    snd (assert asserts resError res fn tr) = tr ++ evs
    /\ forallb is_call evs = true
    /\ sends (snd (assert asserts resError res fn tr)) = sends tr.
Proof.
  destruct (reported_extends asserts resError res tr) as (evs & Hc & He).
  assert (forall l, forallb is_call l = true -> sends l = 0%nat) as Hzero.
  { induction l as [| ev l IH]; [reflexivity |]. simpl.
    intros Hl. apply andb_prop in Hl as [Hev Hl].
    destruct ev; try discriminate. apply (IH Hl). }
  assert (snd (assert asserts resError res None tr)
          = snd (reported asserts resError res tr)) as Hnone.
  { unfold assert.
    pose proof (assert_error_reported asserts resError res tr) as Hr.
    destruct (assert_error asserts resError res tr) as [e tr'].
    rewrite <- Hr. reflexivity. }
  destruct fn as [cb |].
  - exists (evs ++ [EvCall (fn_name cb)
                      [ActVal (fst (reported asserts resError res tr)); ActRes res]]).
    rewrite assert_reported. unfold call. cbn [snd]. rewrite He.
    split; [now rewrite app_assoc |].
    split; [rewrite forallb_app, Hc; reflexivity |].
    rewrite !sends_app, (Hzero evs Hc). cbn. lia.
  - exists evs. rewrite Hnone, He.
    split; [reflexivity |]. split; [exact Hc |].
    rewrite sends_app, (Hzero evs Hc). lia.
Qed.

End Loop.

(** ** Further properties of declaration *)

Lemma sends_send_events t fs : sends (List.map (send_event t) fs) = length fs.
Proof. induction fs as [| f fs IH]; [reflexivity |]. cbn. now rewrite <- IH. Qed.

(** X8. A declaration triggers completion once for each function among
    its second and third argument, in that order, and not at all when its
    first argument is a function (a callback after a predicate is
    ignored).  Each trigger hands one request to the client, and the
    declaration records nothing else. *)
Theorem expect_triggers_completion (args : list Arg) (st : State) :
  trace (expect args st)
    = trace st ++ List.map (send_event (inst st)) (triggered args)
  /\ sends (trace (expect args st))
     = (sends (trace st) + length (triggered args))%nat.
Proof.
  assert (trace (expect args st)
          = trace st ++ List.map (send_event (inst st)) (triggered args)) as Ht.
  { unfold expect, triggered.
    destruct (arg args 0) as [av | f]; simpl;
      [| now rewrite !app_nil_r].
    destruct (arg args 1) as [bv | g], (arg args 2) as [cv | h]; simpl;
      destruct av; try destruct bv; try destruct (1 <? length args)%nat;
      simpl; rewrite <- ?app_assoc, ?app_nil_r; reflexivity. }
  split; [exact Ht |].
  rewrite Ht, sends_app, sends_send_events. reflexivity.
Qed.

Section Declared.

Context `{Host}.

Lemma undefined_body_fails asserts resError res tr :
  In (ABody VUndefined) asserts ->
  (forall r, res = Some r -> text r <> VUndefined) ->
  truthy (fst (reported asserts resError res tr)) = true.
Proof.
  intros Hin Htext.
  destruct (first_failure_member (ABody VUndefined) asserts res Hin)
    with (tr := tr) as (e & tr' & F).
  - intros tr0. unfold assertFunction, apply_assert.
    destruct res as [r |]; [| reflexivity].
    specialize (Htext r eq_refl). unfold assertBody.
    destruct (text r); [contradiction | reflexivity ..].
  - pose proof (first_failure_is_Error _ _ _ _ _ F) as He.
    apply instanceof_Error_truthy in He.
    unfold reported. rewrite F.
    destruct res; [exact He |]. now destruct (truthy resError) eqn:T.
Qed.

(** X9. Called without any argument, [expect] appends a body check for
    [undefined] and triggers nothing; completion then hands the callback an
    error for every response that has a text, and for a missing response. *)
Theorem expect_without_arguments
    (st : State) (resError : JsVal) (res : option Response) (cb : JsFun)
    (tr : Trace) :
  asserts (inst (expect [] st)) = asserts (inst st) ++ [ABody VUndefined]
  /\ trace (expect [] st) = trace st
  /\ pending (expect [] st) = pending st
  /\ ((forall r, res = Some r -> text r <> VUndefined) ->
      exists e tr',
        assert (asserts (inst (expect [] st))) resError res (Some cb) tr
        = call cb [ActVal e; ActRes res] tr'
        /\ truthy e = true).
Proof.
  split; [reflexivity |]. split; [reflexivity |]. split; [reflexivity |].
  intros Htext. eexists _, _. split; [apply assert_reported |].
  apply undefined_body_fails; [| exact Htext].
  apply in_or_app. right. simpl. auto.
Qed.

(** X10. A declared status is checked before the body declared with it:
    on a fresh list, [expect(n, body)] reports the status mismatch, a plain
    error, whenever the status differs, whatever the body is; when the
    status agrees, completion is that of the body check alone. *)
Theorem status_is_checked_before_body
    (n : Z) (bv : JsVal) (st : State) (resError : JsVal) (r : Response)
    (cb : JsFun) (tr : Trace) :
  asserts (inst st) = [] ->
  (status r <> n ->
   exists e,
     assert (asserts (inst (expect [ArgVal (VNum n); ArgVal bv] st)))
            resError (Some r) (Some cb) tr
     = call cb [ActVal e; ActRes (Some r)] tr
     /\ assertStatus n (Some r) = Return e
     /\ instanceof_Error e = true
     /\ has_prop "expected" e = false)
  /\ (status r = n ->
      assert (asserts (inst (expect [ArgVal (VNum n); ArgVal bv] st)))
             resError (Some r) (Some cb) tr
      = assert [ABody bv] resError (Some r) (Some cb) tr).
Proof.
  intros Hfresh.
  assert (asserts (inst (expect [ArgVal (VNum n); ArgVal bv] st))
          = [AStatus n; ABody bv]) as ->.
  { unfold expect. cbn [arg nth length Nat.ltb Nat.leb].
    rewrite !inst_push, !inst_end_if_function. simpl. now rewrite Hfresh. }
  split.
  - intros Hne. apply Z.eqb_neq in Hne.
    eexists. rewrite assert_reported. unfold reported. simpl.
    unfold assertFunction, apply_assert, assertStatus. rewrite Hne. simpl.
    repeat split.
  - intros Heq. apply Z.eqb_eq in Heq.
    assert (pass_all [AStatus n] (Some r) tr = Some tr) as Hp.
    { unfold pass_all, assertFunction, apply_assert, assertStatus.
      now rewrite Heq. }
    rewrite !assert_reported. unfold reported.
    change [AStatus n; ABody bv] with ([AStatus n] ++ [ABody bv]).
    now rewrite (first_failure_pass_app [AStatus n] [ABody bv] (Some r) tr tr Hp).
Qed.

End Declared.

(** ** Further properties of the header and body checks *)

Lemma to_str_array_of_strings xs : to_str (VArr (List.map VStr xs)) = join "," xs.
Proof.
  simpl. rewrite List.map_map. simpl. f_equal.
  induction xs as [| x l IH]; simpl; congruence.
Qed.

Section Checks.

Context `{Host}.

(** X11. A header expectation declared with a number never passes against
    a header whose value is a string or an array, not even when the text
    shows the same digits: the comparison is strict. *)
Theorem numeric_header_value_never_matches
    (r : Response) (field : string) (n : Z) :
  (forall s, header_value r field = VStr s ->
     passes (assertHeader field (VNum n) (Some r)) = false)
  /\ (forall xs, header_value r field = VArr xs ->
        passes (assertHeader field (VNum n) (Some r)) = false).
Proof.
  split; intros v Hv; rewrite assertHeader_present by (rewrite Hv; discriminate);
    rewrite Hv; simpl; rewrite ?andb_false_r; reflexivity.
Qed.

(** X12. A header whose value is an array of strings is compared through
    the strings joined by commas; in particular a single-element array
    matches its element. *)
Theorem multi_valued_header_is_joined
    (r : Response) (field : string) (xs : list string) (s : string) :
  header_value r field = VArr (List.map VStr xs) ->
  passes (assertHeader field (VStr s) (Some r)) = String.eqb (join "," xs) s
  /\ (xs = [s] -> passes (assertHeader field (VStr s) (Some r)) = true).
Proof.
  intros Hv.
  assert (passes (assertHeader field (VStr s) (Some r)) = String.eqb (join "," xs) s)
    as Hj.
  { rewrite assertHeader_present by (rewrite Hv; discriminate).
    rewrite Hv, to_str_array_of_strings.
    cbn [isArray strict_equals andb]. rewrite orb_false_r.
    destruct (String.eqb (join "," xs) s); reflexivity. }
  split; [exact Hj |].
  intros ->. rewrite Hj. simpl. apply String.eqb_refl.
Qed.

(** X13. A string expected as body passes exactly when the text of the
    response is that string; a number or a boolean expected as body fails
    on every response whose text is a string. *)
Theorem text_body_is_compared_strictly (r : Response) :
  (forall s, passes (assertBody (VStr s) (Some r)) = true <-> text r = VStr s)
  /\ (forall t n, text r = VStr t ->
        passes (assertBody (VNum n) (Some r)) = false)
  /\ (forall t b, text r = VStr t ->
        passes (assertBody (VBool b) (Some r)) = false).
Proof.
  split; [| split].
  - intros s. unfold assertBody. cbn [typeof instanceof_RegExp String.eqb andb negb].
    simpl. destruct (text r) as [| | | | t | | | |] eqn:T; simpl;
      try (split; [discriminate | discriminate]).
    destruct (String.eqb s t) eqn:E; simpl.
    + apply String.eqb_eq in E. subst. split; reflexivity.
    + apply String.eqb_neq in E. split; [discriminate | intros [= ->]; contradiction].
  - intros t n T. unfold assertBody. rewrite T. reflexivity.
  - intros t b T. unfold assertBody. rewrite T. reflexivity.
Qed.

(** X14. A pattern expected as body is tested against the text of the
    response rendered as a string, so that a response without a text is
    tested as the word [undefined]. *)
Theorem pattern_body_is_tested_on_text (r : Response) (re : RegExp) :
  passes (assertBody (VRegExp re) (Some r)) = regexp_test re (to_str (text r))
  /\ (text r = VUndefined ->
      passes (assertBody (VRegExp re) (Some r)) = regexp_test re "undefined").
Proof.
  assert (passes (assertBody (VRegExp re) (Some r))
          = regexp_test re (to_str (text r))) as Hp.
  { unfold assertBody. cbn [typeof instanceof_RegExp String.eqb andb negb].
    replace (strict_equals (VRegExp re) (text r)) with false by reflexivity.
    cbn [negb]. destruct (regexp_test re (to_str (text r))); reflexivity. }
  split; [exact Hp |]. intros T. rewrite Hp, T. reflexivity.
Qed.

(** X15. An object, an array or [null] expected as body is compared with
    the parsed body by deep equality and never with the text: responses
    with the same parsed body get the same verdict. *)
Theorem structured_body_ignores_text (expected : JsVal) (r r' : Response) :
  typeof expected = "object" ->
  instanceof_RegExp expected = false ->
  passes (assertBody expected (Some r)) = assertEquals expected (body r)
  /\ (body r' = body r ->
      passes (assertBody expected (Some r')) = passes (assertBody expected (Some r))).
Proof.
  intros Ht Hr.
  assert (forall x, passes (assertBody expected (Some x))
                    = assertEquals expected (body x)) as Hp.
  { intros x. unfold assertBody. rewrite Ht, Hr. simpl.
    destruct (assertEquals expected (body x)); reflexivity. }
  split; [apply Hp |]. intros Hb. now rewrite !Hp, Hb.
Qed.

End Checks.

(** ** Further properties of construction *)

Lemma upper_ascii_idempotent c : upper_ascii (upper_ascii c) = upper_ascii c.
Proof. destruct c as [[] [] [] [] [] [] [] []]; reflexivity. Qed.

Lemma upper_ascii_no_lower c :
  negb ((97 <=? N_of_ascii (upper_ascii c)) && (N_of_ascii (upper_ascii c) <=? 122))%N
  = true.
Proof. destruct c as [[] [] [] [] [] [] [] []]; reflexivity. Qed.

Lemma upper_ascii_fixed c :
  negb ((97 <=? N_of_ascii c) && (N_of_ascii c <=? 122))%N = true ->
  upper_ascii c = c.
Proof. destruct c as [[] [] [] [] [] [] [] []]; (reflexivity || discriminate). Qed.

Lemma toUpperCase_idempotent s : toUpperCase (toUpperCase s) = toUpperCase s.
Proof.
  unfold toUpperCase. induction s as [| c s IH]; simpl; [reflexivity |].
  now rewrite upper_ascii_idempotent, IH.
Qed.

Lemma toUpperCase_no_lower_case s : no_lower_case (toUpperCase s) = true.
Proof.
  unfold toUpperCase. induction s as [| c s IH]; [reflexivity |].
  cbn [map_string no_lower_case]. now rewrite upper_ascii_no_lower, IH.
Qed.

Lemma upper_ascii_is_ascii c :
  (N_of_ascii c <? 128)%N = true -> (N_of_ascii (upper_ascii c) <? 128)%N = true.
Proof. destruct c as [[] [] [] [] [] [] [] []]; (reflexivity || discriminate). Qed.

Lemma toUpperCase_is_ascii s : is_ascii s = true -> is_ascii (toUpperCase s) = true.
Proof.
  unfold toUpperCase. induction s as [| c s IH]; [reflexivity |].
  cbn [map_string is_ascii]. intros Hs. apply andb_prop in Hs as [Hc Hs].
  now rewrite (upper_ascii_is_ascii c Hc), (IH Hs).
Qed.

Lemma toUpperCase_fixed s : no_lower_case s = true -> toUpperCase s = s.
Proof.
  unfold toUpperCase. induction s as [| c s IH]; [reflexivity |].
  cbn [map_string no_lower_case]. intros Hs. apply andb_prop in Hs as [Hc Hs].
  now rewrite (upper_ascii_fixed c Hc), (IH Hs).
Qed.

(** X16. An explicitly empty host counts as no host; for an address
    string neither the host nor [secure] plays a part; for a server factory
    [secure] plays none. *)
Theorem constructor_ignores
    (m path : string) (host : option string) (secure : option bool) (tr : Trace) :
  (forall srv sec,
     serverAddress srv path (Some EmptyString) sec = serverAddress srv path None sec)
  /\ (forall h,
        constructor h m path (Some EmptyString) secure tr
        = constructor h m path None secure tr)
  /\ (forall s,
        constructor (HString s) m path host secure tr
        = constructor (HString s) m path None None tr)
  /\ (forall l,
        constructor (HListener l) m path host secure tr
        = constructor (HListener l) m path host None tr).
Proof.
  split; [reflexivity |]. split; [| split; reflexivity].
  intros h. destruct h; reflexivity.
Qed.

(** X17. Construction hands no request to the client; the only event it
    records is the listen of a server factory.  An instance that is built
    starts with no expectation and with redirects disabled, keeps its
    handle, and has a server exactly when the handle is not an address
    string. *)
Theorem constructor_effects
    (h : Handle) (m path : string) (host : option string) (secure : option bool)
    (tr : Trace) :
  snd (constructor h m path host secure tr) = tr ++ listened h
  /\ sends (snd (constructor h m path host secure tr)) = sends tr
  /\ (forall t, fst (constructor h m path host secure tr) = Built t ->
        asserts t = [] /\ maxRedirects t = 0 /\ app t = h
        /\ (server t = None <-> exists s, h = HString s)).
Proof.
  split; [destruct h; simpl; now rewrite ?app_nil_r |].
  split.
  - destruct h; simpl; rewrite ?sends_app; cbn; lia.
  - intros t. destruct h; simpl; intros [= <-]; simpl;
      (split; [reflexivity | split; [reflexivity | split; [reflexivity |]]]).
    + split; [eauto | reflexivity].
    + split; [discriminate | intros [x [=]]].
    + split; [discriminate | intros [x [=]]].
Qed.

(** X18. For a method written in ASCII characters, the method is stored
    in upper case: the method of a built instance holds no lower-case
    letter, a method that holds none is stored as it is, and constructing
    with the upper-cased method builds the same instance. *)
Theorem constructor_normalises_method
    (h : Handle) (m path : string) (host : option string)
    (secure : option bool) (tr : Trace) :
  is_ascii m = true ->
  constructor h (toUpperCase m) path host secure tr
    = constructor h m path host secure tr
  /\ (forall t, fst (constructor h m path host secure tr) = Built t ->
        no_lower_case (method t) = true
        /\ is_ascii (method t) = true
        /\ (no_lower_case m = true -> method t = m)).
Proof.
  intros Hm. split.
  - unfold constructor. now rewrite toUpperCase_idempotent.
  - intros t Ht.
    assert (method t = toUpperCase m) as ->
      by (destruct h; simpl in Ht; try discriminate;
          injection Ht as <-; reflexivity).
    split; [apply toUpperCase_no_lower_case |].
    split; [apply toUpperCase_is_ascii, Hm | apply toUpperCase_fixed].
Qed.

(** X19. A declaration that triggers no completion commutes with the
    completion trigger: declaring it after [end] leaves the same state as
    declaring it before, so an expectation declared while the request is
    outstanding is part of the list read when the response arrives. *)
Theorem expect_commutes_with_end
    (args : list Arg) (cb : option JsFun) (st : State) :
  triggered args = [] ->
  expect args (end_ cb st) = end_ cb (expect args st).
Proof.
  unfold expect, triggered.
  destruct (arg args 0) as [av | f]; simpl; [| reflexivity].
  destruct (arg args 1) as [bv | g], (arg args 2) as [cv | h]; simpl;
    try discriminate.
  intros _.
  destruct av; try destruct bv; try destruct (1 <? length args)%nat; reflexivity.
Qed.

(** ** Instances of the further properties *)

(** A missing response and no error, against a status check. *)
Lemma missing_response_fails_private_check_witness :
  is_builtin (AStatus 200) = true
  /\ truthy VNull = false
  /\ exists e,
       @assert Reference.host [AStatus 200; AFunction fn_bad] VNull None
         (Some fn_done) []
       = call fn_done [ActVal e; ActRes None] []
       /\ instanceof_Error e = true
       /\ error_props e = [].
Proof.
  split; [reflexivity |]. split; [reflexivity |].
  apply (@missing_response_fails_private_check Reference.host (AStatus 200)
           [AFunction fn_bad] VNull fn_done [] eq_refl eq_refl).
Defined.

(** A status check and a header check that pass, in front of a predicate
    that fails. *)
Lemma passing_checks_are_transparent_witness :
  forallb pattern_free
    [AStatus 200; AHeader "Content-Type" (VStr "application/json")] = true
  /\ @pass_all Reference.host
       [AStatus 200; AHeader "Content-Type" (VStr "application/json")]
       (Some res200) [EvListen 7 0]
     = Some [EvListen 7 0]
  /\ @assert Reference.host
       ([AStatus 200; AHeader "Content-Type" (VStr "application/json")]
          ++ [AFunction fn_bad])
       VNull (Some res200) (Some fn_done) [EvListen 7 0]
     = @assert Reference.host [AFunction fn_bad] VNull (Some res200) (Some fn_done)
         [EvListen 7 0].
Proof.
  split; [reflexivity |]. split; [reflexivity |].
  apply (proj2 (@passing_checks_are_transparent Reference.host
                  [AStatus 200; AHeader "Content-Type" (VStr "application/json")]
                  [AFunction fn_bad] VNull res200 fn_done
                  [EvListen 7 0] [EvListen 7 0] eq_refl eq_refl)).
Defined.

(** A status check and a header check, after a listen was recorded. *)
Lemma pattern_free_checks_are_pure_witness :
  forallb pattern_free [AStatus 200; AHeader "Content-Type" (VStr "text/html")] = true
  /\ @assert Reference.host [AStatus 200; AHeader "Content-Type" (VStr "text/html")]
       VNull (Some res200) (Some fn_done) [EvListen 7 0]
     = call fn_done
         [ActVal (fst (@reported Reference.host
                         [AStatus 200; AHeader "Content-Type" (VStr "text/html")]
                         VNull (Some res200) []));
          ActRes (Some res200)]
         [EvListen 7 0].
Proof.
  split; [reflexivity |].
  apply (@pattern_free_checks_are_pure Reference.host
           [AStatus 200; AHeader "Content-Type" (VStr "text/html")]
           VNull (Some res200) fn_done [EvListen 7 0]).
  reflexivity.
Defined.

(** [expect()] against a response with a text. *)
Lemma expect_without_arguments_witness :
  asserts (inst (expect [] probe_state)) = [ABody VUndefined]
  /\ exists e tr',
       @assert Reference.host (asserts (inst (expect [] probe_state))) VNull
         (Some res200) (Some fn_done) []
       = call fn_done [ActVal e; ActRes (Some res200)] tr'
       /\ truthy e = true.
Proof.
  destruct (@expect_without_arguments Reference.host probe_state VNull (Some res200)
              fn_done []) as (A & _ & _ & C).
  split; [exact A |].
  apply C. intros r [= <-]. vm_compute. discriminate.
Defined.

(** [expect(200, body)] against a response with status 404 and against one
    with status 200. *)
Lemma status_is_checked_before_body_witness :
  asserts (inst probe_state) = []
  /\ (exists e,
        @assert Reference.host
          (asserts (inst (expect [ArgVal (VNum 200); ArgVal (VStr "hello world")]
                            probe_state)))
          VNull (Some res404) (Some fn_done) []
        = call fn_done [ActVal e; ActRes (Some res404)] []
        /\ @assertStatus Reference.host 200 (Some res404) = Return e
        /\ instanceof_Error e = true
        /\ has_prop "expected" e = false)
  /\ @assert Reference.host
       (asserts (inst (expect [ArgVal (VNum 200); ArgVal (VStr "hello world")]
                         probe_state)))
       VNull (Some res200) (Some fn_done) []
     = @assert Reference.host [ABody (VStr "hello world")] VNull (Some res200)
         (Some fn_done) [].
Proof.
  split; [reflexivity |]. split.
  - apply (@status_is_checked_before_body Reference.host 200 (VStr "hello world")
             probe_state VNull res404 fn_done [] eq_refl).
    vm_compute. discriminate.
  - apply (@status_is_checked_before_body Reference.host 200 (VStr "hello world")
             probe_state VNull res200 fn_done [] eq_refl).
    reflexivity.
Defined.

(** A number declared for a header kept as a string and for one kept as an
    array. *)
Lemma numeric_header_value_never_matches_witness :
  header_value res200 "Content-Type" = VStr "application/json"
  /\ passes (@assertHeader Reference.host "Content-Type" (VNum 5) (Some res200)) = false
  /\ passes (@assertHeader Reference.host "Set-Cookie" (VNum 5) (Some res200)) = false.
Proof.
  split; [reflexivity |]. split.
  - apply (proj1 (@numeric_header_value_never_matches Reference.host res200
                    "Content-Type" 5) "application/json").
    reflexivity.
  - apply (proj2 (@numeric_header_value_never_matches Reference.host res200
                    "Set-Cookie" 5) [VStr "a=1"; VStr "b=2"]).
    reflexivity.
Defined.

(** A two-valued header and a single-element one. *)
Lemma multi_valued_header_is_joined_witness :
  header_value res200 "Set-Cookie" = VArr (List.map VStr ["a=1"; "b=2"])
  /\ passes (@assertHeader Reference.host "Set-Cookie" (VStr "a=1,b=2") (Some res200))
     = String.eqb (join "," ["a=1"; "b=2"]) "a=1,b=2"
  /\ passes (@assertHeader Reference.host "X-Tags" (VStr "one") (Some res_no_text))
     = true.
Proof.
  split; [reflexivity |]. split.
  - apply (proj1 (@multi_valued_header_is_joined Reference.host res200 "Set-Cookie"
                    ["a=1"; "b=2"] "a=1,b=2" eq_refl)).
  - apply (proj2 (@multi_valued_header_is_joined Reference.host res_no_text "X-Tags"
                    ["one"] "one" eq_refl)).
    reflexivity.
Defined.

(** The text itself, and a number, declared as body. *)
Lemma text_body_is_compared_strictly_witness :
  passes (@assertBody Reference.host (VStr "hello world") (Some res200)) = true
  /\ passes (@assertBody Reference.host (VNum 5) (Some res200)) = false
  /\ passes (@assertBody Reference.host (VBool true) (Some res200)) = false.
Proof.
  destruct (@text_body_is_compared_strictly Reference.host res200) as (S & N & B).
  split; [apply S; reflexivity |].
  split; [apply (N "hello world"); reflexivity | apply (B "hello world"); reflexivity].
Defined.

(** A pattern against a response without a text. *)
Lemma pattern_body_is_tested_on_text_witness :
  text res_no_text = VUndefined
  /\ passes (@assertBody Reference.host
               (VRegExp {| source := "undefined"; flags := EmptyString |})
               (Some res_no_text))
     = Reference.occurs {| source := "undefined"; flags := EmptyString |} "undefined".
Proof.
  split; [reflexivity |].
  apply (@pattern_body_is_tested_on_text Reference.host res_no_text
           {| source := "undefined"; flags := EmptyString |}).
  reflexivity.
Defined.

(** An object against two responses that differ in their text only. *)
Lemma structured_body_ignores_text_witness :
  typeof (VObj [("a", VNum 1)]) = "object"
  /\ instanceof_RegExp (VObj [("a", VNum 1)]) = false
  /\ passes (@assertBody Reference.host (VObj [("a", VNum 1)]) (Some res200))
     = Reference.deep_equal (VObj [("a", VNum 1)]) (body res200)
  /\ passes (@assertBody Reference.host (VObj [("a", VNum 1)])
               (Some {| status := 200; headers := ∅; text := VStr "other";
                        body := VObj [("a", VNum 1)] |}))
     = passes (@assertBody Reference.host (VObj [("a", VNum 1)]) (Some res200)).
Proof.
  split; [reflexivity |]. split; [reflexivity |].
  destruct (@structured_body_ignores_text Reference.host (VObj [("a", VNum 1)])
              res200
              {| status := 200; headers := ∅; text := VStr "other";
                 body := VObj [("a", VNum 1)] |}
              eq_refl eq_refl) as [P S].
  split; [exact P | apply S; reflexivity].
Defined.

(** Construction on a server factory. *)
Lemma constructor_effects_witness :
  exists t,
    fst (constructor (HListener factory) "get" "/user" None (Some true) []) = Built t
    /\ asserts t = [] /\ maxRedirects t = 0 /\ app t = HListener factory
    /\ (server t = None <-> exists s, HListener factory = HString s).
Proof.
  eexists. split; [reflexivity |].
  apply (proj2 (proj2 (constructor_effects (HListener factory) "get" "/user" None
                         (Some true) []))).
  reflexivity.
Defined.

(** A method given in lower case. *)
Lemma constructor_normalises_method_witness :
  is_ascii "get" = true
  /\ exists t,
       fst (constructor (HString "http://127.0.0.1:4000") "get" "/user" None None [])
         = Built t
       /\ method t = "GET"
       /\ no_lower_case (method t) = true.
Proof.
  split; [reflexivity |].
  eexists. split; [reflexivity |]. split; [reflexivity |].
  apply (proj2 (constructor_normalises_method (HString "http://127.0.0.1:4000")
                  "get" "/user" None None [] eq_refl) _ eq_refl).
Defined.

(** A status with a body, declared after the completion trigger. *)
Lemma expect_commutes_with_end_witness :
  triggered [ArgVal (VNum 200); ArgVal (VStr "hello world")] = []
  /\ expect [ArgVal (VNum 200); ArgVal (VStr "hello world")]
       (end_ (Some fn_done) probe_state)
     = end_ (Some fn_done)
         (expect [ArgVal (VNum 200); ArgVal (VStr "hello world")] probe_state).
Proof.
  split; [reflexivity |].
  apply (expect_commutes_with_end [ArgVal (VNum 200); ArgVal (VStr "hello world")]
           (Some fn_done) probe_state).
  reflexivity.
Defined.
